(** * Exchange latency tester ([ms.py]): model and properties

    The program probes the "server time" endpoint of three exchanges once
    each, prints a summary and saves it as JSON.

    The model follows the source function by function.  The result dicts
    are mutable Python objects that the tester, the report and the save
    share, so they live in a store, and the store, the log, the console and
    the disk are passed through a state and exception monad.  What comes
    from outside (replies, clock readings, interrupts, the file system) is
    an environment [env] that the functions read.  Python floats are the
    kernel's binary64 floats, with the operations of [SpecFloat] as their
    meaning. *)

From Stdlib Require Import ZArith String Ascii List Bool Lia Floats.
From stdpp Require Import base option gmap strings pretty.

Open Scope string_scope.
Open Scope Z_scope.

(** ** Python values *)

Module Py.

(** The scalars a result dictionary holds. *)
Inductive value :=
| VNone
| VBool (b : bool)
| VInt (z : Z)
| VFloat (f : float)
| VStr (s : string).

(** A dict keeps insertion order: a list of items with distinct keys. *)
Definition dict (V : Type) := list (string * V).

Fixpoint dict_get {V} (d : dict V) (k : string) : option V :=
  match d with
  | [] => None
  | (k', v) :: d' => if String.eqb k' k then Some v else dict_get d' k
  end.

Definition dict_has {V} (d : dict V) (k : string) : bool :=
  match dict_get d k with Some _ => true | None => false end.

(** [d[k] = v]: an existing key keeps its position, a new one goes last. *)
Fixpoint dict_set {V} (d : dict V) (k : string) (v : V) : dict V :=
  match d with
  | [] => [(k, v)]
  | (k', v') :: d' =>
      if String.eqb k' k then (k', v) :: d' else (k', v') :: dict_set d' k v
  end.

(** A dict display [{k1: v1, ...}]: later duplicates overwrite. *)
Definition dict_lit {V} (items : list (string * V)) : dict V :=
  fold_left (fun d kv => dict_set d (fst kv) (snd kv)) items [].

Definition keys {V} (d : dict V) : list string := map fst d.

(** ** Floats *)

Definition inf : float := infinity.

(** [x == float('inf')] for a value [x]: only the float +infinity is equal
    to it (an int, a bool, a str or None never is). *)
Definition eq_inf (v : value) : bool :=
  match v with
  | VFloat f => (f =? inf)%float
  | _ => false
  end.

(** Rounds the rational [m / 2^k] to the nearest integer, ties to even. *)
Definition round_half_even (m : Z) (k : Z) : Z :=
  let q := Z.shiftr m k in
  let r := m - Z.shiftl q k in
  match Z.compare (2 * r) (Z.shiftl 1 k) with
  | Lt => q
  | Gt => q + 1
  | Eq => if Z.even q then q else q + 1
  end.

Definition two_digits (n : Z) : string :=
  pretty (n / 10) +:+ pretty (n mod 10).

Definition sign_str (s : bool) : string := if s then "-" else "".

(** [format(x, '.2f')]: the exact value of the float, correctly rounded to
    two decimals. *)
Definition format_2f (x : float) : string :=
  match Prim2SF x with
  | S754_nan => "nan"
  | S754_infinity s => sign_str s +:+ "inf"
  | S754_zero s => sign_str s +:+ "0.00"
  | S754_finite s m e =>
      let n := if 0 <=? e then Z.pos m * 100 * 2 ^ e
               else round_half_even (Z.pos m * 100) (- e) in
      sign_str s +:+ pretty (n / 100) +:+ "." +:+ two_digits (n mod 100)
  end.

(** ** Strings *)

Definition upper_ascii (c : ascii) : ascii :=
  let n := nat_of_ascii c in
  if ((97 <=? n) && (n <=? 122))%nat then ascii_of_nat (n - 32) else c.

(** [s.upper()], on the ASCII letters (the exchange ids are ASCII). *)
Fixpoint upper (s : string) : string :=
  match s with
  | EmptyString => EmptyString
  | String c s' => String (upper_ascii c) (upper s')
  end.

(** [c * n] for a one-character string. *)
Fixpoint repeat_str (c : string) (n : nat) : string :=
  match n with
  | O => ""
  | S n' => c +:+ repeat_str c n'
  end.

Definition nl : string := String (ascii_of_nat 10) EmptyString.

(** Decimal with leading zeros, as ["%02d"] and ["%04d"] print it. *)
Definition zero_pad (width : nat) (n : N) : string :=
  let s := pretty n in
  repeat_str "0" (width - String.length s) +:+ s.

(** ** Exceptions *)

Inductive exn :=
| KeyError (key : string)
| RequestException (text : string)
| OSError (text : string)
| OverflowError (text : string)
| TypeError (text : string)
| ValueError (text : string)
| SystemError (text : string)
| OtherException (text : string)
| KeyboardInterrupt.

(** [isinstance(e, Exception)]: [KeyboardInterrupt] derives from
    [BaseException] only. *)
Definition is_Exception (e : exn) : bool :=
  match e with
  | KeyboardInterrupt => false
  | _ => true
  end.

Definition is_RequestException (e : exn) : bool :=
  match e with
  | RequestException _ => true
  | _ => false
  end.

Definition is_KeyboardInterrupt (e : exn) : bool :=
  match e with
  | KeyboardInterrupt => true
  | _ => false
  end.

End Py.
Export Py.


(** ** The store, the outputs and the monad *)

Definition loc := positive.

(** The attributes of an [ExchangeLatencyTester] instance. *)
Record tester := {
  results : loc;
  endpoints : dict string;
  headers : dict string
}.

(** The objects of the program: a result dict (a ProbeResult), a dict from
    exchange to result dict (a ResultsSet), and the tester instance. *)
Inductive cell :=
| CResult (fields : dict value)
| CResults (entries : dict loc)
| CTester (t : tester).

Inductive level := INFO | WARNING | ERROR.

(** What reaches the console besides the log: the lines [print] writes and
    the trace [traceback.print_exc] writes. *)
Inductive output :=
| Printed (line : string)
| Traceback (e : exn).

(** A file of the disk: written in full, or opened for writing and left
    with only part of the text. *)
Inductive file :=
| Complete (text : string)
| Partial.

Record world := {
  heap : gmap loc cell;
  log : list (level * string);
  console : list output;
  disk : gmap string file
}.

Definition empty_world : world :=
  {| heap := ∅; log := []; console := []; disk := ∅ |}.

Definition set_heap (f : gmap loc cell → gmap loc cell) (w : world) : world :=
  {| heap := f (heap w); log := log w; console := console w; disk := disk w |}.

Definition add_log (r : level * string) (w : world) : world :=
  {| heap := heap w; log := log w ++ [r]; console := console w; disk := disk w |}.

Definition add_console (o : output) (w : world) : world :=
  {| heap := heap w; log := log w; console := console w ++ [o]; disk := disk w |}.

Definition set_disk (f : gmap string file → gmap string file) (w : world) : world :=
  {| heap := heap w; log := log w; console := console w; disk := f (disk w) |}.

Inductive outcome (A : Type) :=
| Ok (a : A)
| Raise (e : exn).
Arguments Ok {A} a.
Arguments Raise {A} e.

Definition M (A : Type) : Type := world → outcome A * world.

#[global] Instance M_ret : MRet M := λ A a w, (Ok a, w).

#[global] Instance M_bind : MBind M := λ A B k m w,
  match m w with
  | (Ok a, w') => k a w'
  | (Raise e, w') => (Raise e, w')
  end.

Definition raise {A} (e : exn) : M A := λ w, (Raise e, w).

(** [try: m except ...]: [handler e] is the first clause that matches [e],
    if one does. *)
Definition try_except {A} (m : M A) (handler : exn → option (M A)) : M A :=
  λ w,
    match m w with
    | (Ok a, w') => (Ok a, w')
    | (Raise e, w') =>
        match handler e with
        | Some h => h w'
        | None => (Raise e, w')
        end
    end.

Definition except (is_class : exn → bool) {A} (h : exn → M A) (e : exn)
  : option (M A) :=
  if is_class e then Some (h e) else None.

Fixpoint for_each {A} (l : list A) (body : A → M unit) : M unit :=
  match l with
  | [] => mret tt
  | x :: l' => body x ;; for_each l' body
  end.

Definition logger_info (msg : string) : M unit := λ w, (Ok tt, add_log (INFO, msg) w).
Definition logger_warning (msg : string) : M unit := λ w, (Ok tt, add_log (WARNING, msg) w).
Definition logger_error (msg : string) : M unit := λ w, (Ok tt, add_log (ERROR, msg) w).
Definition print (line : string) : M unit := λ w, (Ok tt, add_console (Printed line) w).
Definition traceback_print_exc (e : exn) : M unit := λ w, (Ok tt, add_console (Traceback e) w).

(** A new object gets an address that is not in use. *)
Definition alloc (c : cell) : M loc := λ w,
  let l := fresh (dom (heap w)) in (Ok l, set_heap <[l := c]> w).

Definition store (l : loc) (c : cell) : M unit := λ w, (Ok tt, set_heap <[l := c]> w).

(** Python has no dangling or ill-typed reference to these objects; the
    model reports one as a [SystemError]. *)
Definition load_result (l : loc) : M (dict value) := λ w,
  match heap w !! l with
  | Some (CResult d) => (Ok d, w)
  | _ => (Raise (SystemError "not a result dict"), w)
  end.

Definition load_results (l : loc) : M (dict loc) := λ w,
  match heap w !! l with
  | Some (CResults d) => (Ok d, w)
  | _ => (Raise (SystemError "not a results dict"), w)
  end.

Definition load_tester (l : loc) : M tester := λ w,
  match heap w !! l with
  | Some (CTester t) => (Ok t, w)
  | _ => (Raise (SystemError "not a tester"), w)
  end.

(** [d[k]] *)
Definition subscript {V} (d : dict V) (k : string) : M V :=
  match dict_get d k with
  | Some v => mret v
  | None => raise (KeyError k)
  end.

(** ** The environment

    What the program gets from outside: the network, the clocks, the pause,
    the file system, and two conversions of the interpreter that the model
    leaves open.  An exception from outside, [KeyboardInterrupt] above all,
    reaches the program where it waits: in a request or in a pause. *)

Inductive http_reply :=
| Response (status_code : Z)
| Fails (e : exn).

Record datetime := {
  year : N; month : N; day : N;
  hour : N; minute : N; second : N; microsecond : N
}.

Inductive io_outcome :=
| IoOk
| IoOpenError (text : string)
| IoWriteError (text : string).

Record env := {
  (** [requests.get(url, headers=..., timeout=...)] *)
  requests_get : string → dict string → Z → http_reply;
  (** [time.perf_counter()] read before and after the request to a URL *)
  clock_before : string → float;
  clock_after : string → float;
  (** the exception, if any, that ends the pause after an exchange's probe *)
  time_sleep : string → option exn;
  (** [datetime.now()] where the file name and the timestamp are made *)
  now_filename : datetime;
  now_timestamp : datetime;
  (** what happens when the named file is opened and written *)
  fs : string → io_outcome;
  (** [float.__repr__] and [repr] on a str *)
  float_repr : float → string;
  str_repr : string → string
}.

(** [str(e)] *)
Definition exn_str (E : env) (e : exn) : string :=
  match e with
  | KeyError k => str_repr E k
  | RequestException t | OSError t | OverflowError t | TypeError t
  | ValueError t | SystemError t | OtherException t => t
  | KeyboardInterrupt => ""
  end.

(** [str(v)], which an f-string applies to a value without format spec. *)
Definition py_str (E : env) (v : value) : string :=
  match v with
  | VNone => "None"
  | VBool true => "True"
  | VBool false => "False"
  | VInt z => pretty z
  | VFloat f => float_repr E f
  | VStr s => s
  end.

(** [bool(v)] *)
Definition truthy (v : value) : bool :=
  match v with
  | VNone => false
  | VBool b => b
  | VInt z => negb (z =? 0)
  | VFloat f => negb (f =? 0)%float
  | VStr s => negb (String.eqb s "")
  end.

(** [float(z)] for an int: correctly rounded, [OverflowError] beyond the
    largest float. *)
Definition float_of_int (z : Z) : M float :=
  match binary_normalize prec emax z 0 false with
  | S754_infinity _ => raise (OverflowError "int too large to convert to float")
  | sf => mret (SF2Prim sf)
  end.

(** [format(v, '.2f')] *)
Definition format_value_2f (v : value) : M string :=
  match v with
  | VFloat f => mret (format_2f f)
  | VInt z => f ← float_of_int z; mret (format_2f f)
  | VBool b => mret (if b then "1.00" else "0.00")
  | VStr _ => raise (ValueError "Unknown format code 'f' for object of type 'str'")
  | VNone => raise (TypeError "unsupported format string passed to NoneType.__format__")
  end.

(** [strftime("%Y%m%d_%H%M%S")], for a year of four digits. *)
Definition strftime_compact (t : datetime) : string :=
  zero_pad 4 (year t) +:+ zero_pad 2 (month t) +:+ zero_pad 2 (day t) +:+ "_"
  +:+ zero_pad 2 (hour t) +:+ zero_pad 2 (minute t) +:+ zero_pad 2 (second t).

(** [isoformat()] of a naive local time. *)
Definition isoformat (t : datetime) : string :=
  zero_pad 4 (year t) +:+ "-" +:+ zero_pad 2 (month t) +:+ "-" +:+ zero_pad 2 (day t)
  +:+ "T" +:+ zero_pad 2 (hour t) +:+ ":" +:+ zero_pad 2 (minute t) +:+ ":"
  +:+ zero_pad 2 (second t)
  +:+ (if (microsecond t =? 0)%N then "" else "." +:+ zero_pad 6 (microsecond t)).

(** ** JSON text, as [json.dump(obj, f, indent=2)] writes it *)

Module Json.

#[warnings="-register-all"]
Inductive json :=
| JScalar (v : value)
| JObject (items : list (string * json)).

Definition quote : string := String (ascii_of_nat 34) EmptyString.

Definition hex_digit (n : N) : string :=
  match n with
  | 10%N => "a" | 11%N => "b" | 12%N => "c"
  | 13%N => "d" | 14%N => "e" | 15%N => "f"
  | _ => pretty n
  end.

(** One character of a string under [ensure_ascii]: the short escapes, the
    printable ASCII characters as they are, the rest as [\u00XX]. *)
Definition escape_char (c : ascii) : string :=
  let n := N_of_ascii c in
  if (n =? 34)%N then "\" +:+ quote
  else if (n =? 92)%N then "\\"
  else if (n =? 10)%N then "\n"
  else if (n =? 13)%N then "\r"
  else if (n =? 9)%N then "\t"
  else if (n =? 12)%N then "\f"
  else if (n =? 8)%N then "\b"
  else if ((32 <=? n) && (n <=? 126))%N then String c ""
  else "\u00" +:+ hex_digit (n / 16) +:+ hex_digit (n mod 16).

Fixpoint escape (s : string) : string :=
  match s with
  | EmptyString => ""
  | String c s' => escape_char c +:+ escape s'
  end.

Definition encode_str (s : string) : string := quote +:+ escape s +:+ quote.

Definition floatstr (E : env) (f : float) : string :=
  if negb (f =? f)%float then "NaN"
  else if (f =? infinity)%float then "Infinity"
  else if (f =? neg_infinity)%float then "-Infinity"
  else float_repr E f.

Definition encode_scalar (E : env) (v : value) : string :=
  match v with
  | VStr s => encode_str s
  | VNone => "null"
  | VBool true => "true"
  | VBool false => "false"
  | VInt z => pretty z
  | VFloat f => floatstr E f
  end.

Definition newline_indent (indent level : nat) : string :=
  nl +:+ repeat_str " " (indent * level).

(** [level] is the nesting depth of the value: the items of an object at
    depth [level] are indented by [indent * (level + 1)] spaces. *)
Fixpoint iterencode (E : env) (indent : nat) (level : nat) (j : json) : string :=
  match j with
  | JScalar v => encode_scalar E v
  | JObject [] => "{}"
  | JObject items =>
      let sep := "," +:+ newline_indent indent (S level) in
      let fix go (first : bool) (l : list (string * json)) : string :=
        match l with
        | [] => ""
        | (k, v) :: l' =>
            (if first then "" else sep)
            +:+ encode_str k +:+ ": " +:+ iterencode E indent (S level) v
            +:+ go false l'
        end in
      "{" +:+ newline_indent indent (S level) +:+ go true items
      +:+ newline_indent indent level +:+ "}"
  end.

Definition dumps (E : env) (indent : nat) (j : json) : string :=
  iterencode E indent 0 j.

End Json.
Export Json.

(** ** The program *)

Module ExchangeLatencyTester.

(** The endpoint and header tables that [__init__] sets. *)
Definition default_endpoints : dict string :=
  dict_lit [
    ("binance", "https://api.binance.com/api/v3/time");
    ("bybit", "https://api.bybit.com/v5/market/time");
    ("gateio", "https://api.gateio.ws/api/v4/spot/time")].

Definition default_headers : dict string :=
  dict_lit [
    ("User-Agent", "Mozilla/5.0 (Windows NT 10.0; Win64; x64) AppleWebKit/537.36");
    ("Accept", "application/json")].

(** [__init__] *)
Definition init : M loc :=
  r ← alloc (CResults (dict_lit []));
  alloc (CTester {|
    results := r;
    endpoints := default_endpoints;
    headers := default_headers
  |}).

(** [requests.get(...)]: a response, or the exception the call raises. *)
Definition get (E : env) (url : string) (hdrs : dict string) (timeout : Z) : M Z :=
  match requests_get E url hdrs timeout with
  | Response status_code => mret status_code
  | Fails e => raise e
  end.

Definition test_rest_latency (E : env) (self : loc) (exchange : string) : M loc :=
  t ← load_tester self;
  endpoint ← subscript (endpoints t) exchange;
  logger_info ("Testing REST latency for " +:+ upper exchange);;
  try_except
    (let start_time := clock_before E endpoint in
     status_code ← get E endpoint (headers t) 10;
     let end_time := clock_after E endpoint in
     if status_code =? 200 then
       let latency := ((end_time - start_time) * 1000)%float in
       logger_info ("Request: " +:+ format_2f latency +:+ " ms (Status: "
                    +:+ pretty status_code +:+ ")");;
       alloc (CResult (dict_lit [
         ("exchange", VStr exchange);
         ("test_type", VStr "rest");
         ("latency", VFloat latency);
         ("status_code", VInt status_code);
         ("success", VBool true)]))
     else
       logger_warning ("Request failed with status code " +:+ pretty status_code);;
       alloc (CResult (dict_lit [
         ("exchange", VStr exchange);
         ("test_type", VStr "rest");
         ("latency", VFloat inf);
         ("status_code", VInt status_code);
         ("success", VBool false)])))
    (except is_RequestException (λ e,
       logger_error ("Request error: " +:+ exn_str E e);;
       alloc (CResult (dict_lit [
         ("exchange", VStr exchange);
         ("test_type", VStr "rest");
         ("latency", VFloat inf);
         ("status_code", VNone);
         ("success", VBool false);
         ("error", VStr (exn_str E e))])))).

(** [time.sleep(1)] after the probe of [exchange] *)
Definition sleep (E : env) (exchange : string) : M unit :=
  match time_sleep E exchange with
  | Some e => raise e
  | None => mret tt
  end.

(** The body of the loop of [run_tests]; [results] is the dict of the run. *)
Definition run_tests_body (E : env) (self results : loc) (exchange : string) : M unit :=
  logger_info (nl +:+ repeat_str "=" 50);;
  logger_info ("Testing " +:+ upper exchange);;
  logger_info (repeat_str "=" 50);;
  result ← test_rest_latency E self exchange;
  rs ← load_results results;
  store results (CResults (dict_set rs exchange result));;
  sleep E exchange.

Definition run_tests (E : env) (self : loc) : M loc :=
  logger_info "Starting latency tests...";;
  results ← alloc (CResults (dict_lit []));
  for_each ["binance"; "bybit"; "gateio"] (run_tests_body E self results);;
  t ← load_tester self;
  store self (CTester {| results := results; endpoints := endpoints t; headers := headers t |});;
  mret results.

(** The body of the loop of [print_results]: the block of one exchange. *)
Definition print_results_body (E : env) (item : string * loc) : M unit :=
  let '(exchange, result) := item in
  print (nl +:+ upper exchange +:+ " Results:");;
  success ← (r ← load_result result; subscript r "success");
  if truthy success then
    latency ← (r ← load_result result; subscript r "latency");
    text ← format_value_2f latency;
    print ("  Latency: " +:+ text +:+ " ms");;
    status_code ← (r ← load_result result; subscript r "status_code");
    print ("  Status Code: " +:+ py_str E status_code)
  else
    print "  Request failed";;
    r ← load_result result;
    (if dict_has r "error" then
       error ← subscript r "error";
       print ("  Error: " +:+ py_str E error)
     else mret tt);;
    r ← load_result result;
    print ("  Status Code: "
           +:+ py_str E (default (VStr "N/A") (dict_get r "status_code"))).

Definition print_results (E : env) (self : loc) : M unit :=
  t ← load_tester self;
  rs ← load_results (results t);
  match rs with
  | [] => logger_warning "No results to display. Run tests first."
  | _ =>
      print (nl +:+ repeat_str "=" 80);;
      print "LATENCY TEST RESULTS SUMMARY";;
      print (repeat_str "=" 80);;
      for_each rs (print_results_body E)
  end.

(** The object graph [json.dump] walks from a results dict. *)
Definition json_of_result (d : dict value) : json :=
  JObject (map (λ kv, (fst kv, JScalar (snd kv))) d).

Fixpoint json_of_entries (entries : dict loc) : M (list (string * json)) :=
  match entries with
  | [] => mret []
  | (k, l) :: entries' =>
      d ← load_result l;
      items ← json_of_entries entries';
      mret ((k, json_of_result d) :: items)
  end.

Definition json_of_results (l : loc) : M json :=
  entries ← load_results l;
  items ← json_of_entries entries;
  mret (JObject items).

(** [with open(filename, 'w') as f: json.dump(obj, f, indent=2)] *)
Definition open_and_dump (E : env) (filename : string) (obj : json) : M unit :=
  match fs E filename with
  | IoOpenError text => raise (OSError text)
  | IoWriteError text =>
      λ w, (Raise (OSError text), set_disk <[filename := Partial]> w)
  | IoOk =>
      λ w, (Ok tt, set_disk <[filename := Complete (dumps E 2 obj)]> w)
  end.

(** The file name when none is given. *)
Definition save_filename (E : env) (filename : option string) : string :=
  match filename with
  | None => "latency_test_results_" +:+ strftime_compact (now_filename E) +:+ ".json"
  | Some f => f
  end.

(** The body of the loop of [save_results_to_file]: the copy of one result,
    with its latency replaced when it is infinite, goes into the dict that
    is saved. *)
Definition save_body (serializable_results : loc) (item : string * loc) : M unit :=
  let '(key, result) := item in
  r ← load_result result;
  serializable_result ← alloc (CResult r);
  sr ← load_result serializable_result;
  (if match dict_get sr "latency" with
      | Some v => eq_inf v
      | None => false
      end
   then store serializable_result (CResult (dict_set sr "latency" (VStr "inf")))
   else mret tt);;
  srs ← load_results serializable_results;
  store serializable_results (CResults (dict_set srs key serializable_result)).

Definition save_results_to_file (E : env) (self : loc) (filename : option string)
  : M unit :=
  t ← load_tester self;
  rs ← load_results (results t);
  match rs with
  | [] => logger_warning "No results to save."
  | _ =>
      let filename := save_filename E filename in
      try_except
        (serializable_results ← alloc (CResults (dict_lit []));
         for_each rs (save_body serializable_results);;
         res ← json_of_results serializable_results;
         open_and_dump E filename (JObject (dict_lit [
           ("timestamp", JScalar (VStr (isoformat (now_timestamp E))));
           ("results", res)]));;
         logger_info ("Results saved to " +:+ filename))
        (except is_Exception (λ e,
           logger_error ("Failed to save results: " +:+ exn_str E e)))
  end.

End ExchangeLatencyTester.
Export ExchangeLatencyTester.

Definition main (E : env) : M unit :=
  tester ← init;
  try_except
    (results ← run_tests E tester;
     print_results E tester;;
     save_results_to_file E tester None)
    (λ e,
       if is_KeyboardInterrupt e then
         Some (logger_info "Test interrupted by user")
       else if is_Exception e then
         Some (logger_error ("Test failed with error: " +:+ exn_str E e);;
               traceback_print_exc e)
       else None).

(** * Definitions for the statements and the proofs *)

(** ** Clock readings and latencies *)

(** The largest absolute clock reading the latency computation is proved
    for: [2^996] seconds. *)
Definition clock_bound : float := 0x1p+996%float.

(** [time.perf_counter] is monotonic, and its readings around the request to
    [url] are within the bound. *)
Definition clock_ok (E : env) (url : string) : Prop :=
  (clock_before E url <=? clock_after E url)%float = true
  ∧ (abs (clock_before E url) <=? clock_bound)%float = true
  ∧ (abs (clock_after E url) <=? clock_bound)%float = true.

(** A latency that is a finite number of milliseconds, not negative. *)
Definition finite_nonneg (v : value) : Prop :=
  ∃ f, v = VFloat f ∧ is_finite f = true ∧ (0 <=? f)%float = true.

(** Magnitude bounds on the binary64 representation: [m * 2^e] with [m] of
    [d] binary digits has magnitude [d + e]. *)
Definition mag_le (K : Z) (x : spec_float) : Prop :=
  match x with
  | S754_zero _ => True
  | S754_finite _ m e => Z.pos (digits2_pos m) + e ≤ K
  | _ => False
  end.

Definition nonneg_mag_le (K : Z) (x : spec_float) : Prop :=
  match x with
  | S754_zero _ => True
  | S754_finite s m e => s = false ∧ Z.pos (digits2_pos m) + e ≤ K
  | _ => False
  end.

(** ** The prober and the loop *)

(** The three result dicts of the prober. *)
Definition success_dict (exchange : string) (latency : float) (status_code : Z) : dict value :=
  [("exchange", VStr exchange); ("test_type", VStr "rest");
   ("latency", VFloat latency); ("status_code", VInt status_code);
   ("success", VBool true)].

Definition failure_dict (exchange : string) (status_code : Z) : dict value :=
  [("exchange", VStr exchange); ("test_type", VStr "rest");
   ("latency", VFloat inf); ("status_code", VInt status_code);
   ("success", VBool false)].

Definition error_dict (exchange : string) (text : string) : dict value :=
  [("exchange", VStr exchange); ("test_type", VStr "rest");
   ("latency", VFloat inf); ("status_code", VNone);
   ("success", VBool false); ("error", VStr text)].

(** What a probe leaves behind: the result dict and the log record that
    follows the announcement, or the exception that leaves the prober. *)
Definition probe_outcome (E : env) (exchange url : string) (r : http_reply)
  : dict value * (level * string) + exn :=
  match r with
  | Response s =>
      if s =? 200 then
        let latency := ((clock_after E url - clock_before E url) * 1000)%float in
        inl (success_dict exchange latency s,
             (INFO, "Request: " +:+ format_2f latency +:+ " ms (Status: " +:+ pretty s +:+ ")"))
      else
        inl (failure_dict exchange s,
             (WARNING, "Request failed with status code " +:+ pretty s))
  | Fails e =>
      if is_RequestException e then
        inl (error_dict exchange (exn_str E e),
             (ERROR, "Request error: " +:+ exn_str E e))
      else inr e
  end.

Definition announce (exchange : string) : level * string :=
  (INFO, "Testing REST latency for " +:+ upper exchange).

Definition after_probe (w : world) (exchange : string) (d : dict value) (r : level * string) : world :=
  {| heap := <[fresh (dom (heap w)) := CResult d]> (heap w);
     log := log w ++ [announce exchange; r];
     console := console w;
     disk := disk w |}.

Definition banner : level * string := (INFO, repeat_str "=" 50).
Definition banner_nl : level * string := (INFO, nl +:+ repeat_str "=" 50).
Definition testing (exchange : string) : level * string :=
  (INFO, "Testing " +:+ upper exchange).

(** The world after one round of the loop: the result dict is new, the
    results dict has one more entry. *)
Definition after_round (w : world) (results : loc) (entries : dict loc)
  (exchange : string) (d : dict value) (r : level * string) : world :=
  let l := fresh (dom (heap w)) in
  {| heap := <[results := CResults (dict_set entries exchange l)]>
               (<[l := CResult d]> (heap w));
     log := log w ++ [banner_nl; testing exchange; banner; announce exchange; r];
     console := console w;
     disk := disk w |}.

(** The probe of [exchange] and the pause after it complete: the endpoint is
    configured, the request gets a response or fails with a
    [RequestException], and the pause is not interrupted. *)
Definition completes (E : env) (eps hdrs : dict string) (exchange : string) : Prop :=
  ∃ url, dict_get eps exchange = Some url
    ∧ match requests_get E url hdrs 10 with
      | Response _ => True
      | Fails e => is_RequestException e = true
      end
    ∧ time_sleep E exchange = None.

(** ** Saving *)

(** [m] keeps every object of the store [h0]: whatever it returns or
    raises, the objects of [h0] are in the final store, unchanged. *)
Definition frames (h0 : gmap loc cell) {A} (m : M A) : Prop :=
  ∀ w, h0 ⊆ heap w → h0 ⊆ heap (snd (m w)).

(** The copy of a result dict that is saved. *)
Definition serializable (d : dict value) : dict value :=
  if match dict_get d "latency" with Some v => eq_inf v | None => false end
  then dict_set d "latency" (VStr "inf") else d.

(** The entries of a results dict and the result dicts they are bound to. *)
Definition entries_view (h : gmap loc cell) (entries : dict loc)
  (rs : list (string * dict value)) : Prop :=
  Forall2 (λ e r, fst e = fst r ∧ h !! snd e = Some (CResult (snd r))) entries rs.

(** The object handed to [json.dump]. *)
Definition saved_object (E : env) (rs : list (string * dict value)) : json :=
  JObject [("timestamp", JScalar (VStr (isoformat (now_timestamp E))));
           ("results", JObject (map (λ r, (fst r, json_of_result (serializable (snd r)))) rs))].

(** The tester at [self] holds the results [rs]: its results dict binds the
    exchanges of [rs], in this order, to result dicts with the fields of
    [rs]; the exchanges are distinct, as the keys of any dict. *)
Definition results_at (w : world) (self : loc) (rs : list (string * dict value)) : Prop :=
  ∃ t entries,
    heap w !! self = Some (CTester t)
    ∧ heap w !! results t = Some (CResults entries)
    ∧ entries_view (heap w) entries rs
    ∧ NoDup (keys rs).

Module Spec.

(** What the spec says is written for a field: the string ["inf"] for a
    latency that is the infinity sentinel, the value itself otherwise. *)
Definition saved_field (k : string) (v : value) : value :=
  if String.eqb k "latency" && eq_inf v then VStr "inf" else v.

End Spec.

(** The text of an object with the keys timestamp and results, in this
    order, each on a line of its own behind two spaces. *)
Definition top_level_text (E : env) (timestamp : string) (items : list (string * json))
  : string :=
  "{" +:+ nl
  +:+ "  " +:+ encode_str "timestamp" +:+ ": " +:+ encode_str timestamp +:+ "," +:+ nl
  +:+ "  " +:+ encode_str "results" +:+ ": " +:+ iterencode E 2 1 (JObject items) +:+ nl
  +:+ "}".

(** ** Interrupts and the report *)

(** The exchanges in the order of the loop. *)
Definition exchanges : list string := ["binance"; "bybit"; "gateio"].

(** The log record that announces a request. *)
Definition is_announce (r : level * string) : bool :=
  String.prefix "Testing REST latency for " (snd r).

(** Where the interrupt arrives: during the request to the [n]-th exchange,
    or during the pause after it. *)
Inductive interrupt_point :=
| DuringProbe (n : nat)
| DuringPause (n : nat).

Definition point_index (p : interrupt_point) : nat :=
  match p with DuringProbe n | DuringPause n => n end.

(** The number of probes that have completed when the interrupt arrives. *)
Definition completed (p : interrupt_point) : nat :=
  match p with DuringProbe n => n | DuringPause n => S n end.

(** The earlier probes and pauses complete, and [KeyboardInterrupt] is
    raised at the point [p]. *)
Definition interrupted_at (E : env) (eps hdrs : dict string) (p : interrupt_point) : Prop :=
  Forall (completes E eps hdrs) (take (point_index p) exchanges)
  ∧ ∃ x url,
      exchanges !! point_index p = Some x
      ∧ dict_get eps x = Some url
      ∧ match p with
        | DuringProbe _ => requests_get E url hdrs 10 = Fails KeyboardInterrupt
        | DuringPause _ =>
            match requests_get E url hdrs 10 with
            | Response _ => True
            | Fails e => is_RequestException e = true
            end
            ∧ time_sleep E x = Some KeyboardInterrupt
        end.

(** The world after [print] has written [lines]. *)
Definition add_lines (lines : list string) (w : world) : world :=
  {| heap := heap w; log := log w;
     console := console w ++ map Printed lines; disk := disk w |}.

(** [print_results] has run: it has printed a line, or logged that there
    is nothing to display. *)
Definition report_reached (w : world) : bool :=
  existsb (λ o, match o with Printed _ => true | Traceback _ => false end) (console w)
  || existsb (λ r, String.eqb (snd r) "No results to display. Run tests first.") (log w).

(** ** Sample runs *)

Module Sample.

Definition binance_url : string := "https://api.binance.com/api/v3/time".
Definition bybit_url : string := "https://api.bybit.com/v5/market/time".

(** Clock readings 62.5 ms apart around every request; the two conversions
    of the interpreter on the values of these runs. *)
Definition base (reply : string → http_reply) (io : io_outcome) : env :=
  {| requests_get := λ url _ _, reply url;
     clock_before := λ _, 8%float;
     clock_after := λ _, 8.0625%float;
     time_sleep := λ _, None;
     now_filename := {| year := 2024; month := 1; day := 2;
                        hour := 3; minute := 4; second := 5; microsecond := 0 |};
     now_timestamp := {| year := 2024; month := 1; day := 2;
                         hour := 3; minute := 4; second := 5; microsecond := 678 |};
     fs := λ _, io;
     float_repr := λ f, if (f =? 62.5)%float then "62.5" else "<float>";
     str_repr := λ s, "'" +:+ s +:+ "'" |}.

(** binance answers 200, bybit answers 503, the request to gateio times out. *)
Definition replies (url : string) : http_reply :=
  if String.eqb url binance_url then Response 200
  else if String.eqb url bybit_url then Response 503
  else Fails (RequestException "timed out").

Definition scenario_D : env := base replies IoOk.

Definition disk_full : env := base replies (IoWriteError "No space left on device").

(** binance answers 200, the user interrupts the request to bybit. *)
Definition interrupted : env :=
  base (λ url, if String.eqb url binance_url then Response 200
               else Fails KeyboardInterrupt) IoOk.

(** The store after [__init__]: the tester is at 2. *)
Definition fresh_tester : world := snd (init empty_world).

(** The store after the tests of [scenario_D]. *)
Definition tested : world := snd (run_tests scenario_D 2%positive fresh_tester).

Definition tested_results : list (string * dict value) :=
  [("binance", success_dict "binance" 62.5 200);
   ("bybit", failure_dict "bybit" 503);
   ("gateio", error_dict "gateio" "timed out")].

End Sample.

(** ** What a computation keeps *)

(** [m] keeps the property [I] of the world, whatever it returns or
    raises. *)
Definition keeps (I : world → Prop) {A} (m : M A) : Prop :=
  ∀ w, I w → I (snd (m w)).

(** The worlds that extend the store [h0] and have the console [c0] and
    the disk [d0]. *)
Definition extends (h0 : gmap loc cell) (c0 : list output) (d0 : gmap string file)
  (w : world) : Prop :=
  h0 ⊆ heap w ∧ console w = c0 ∧ disk w = d0.

(** ** The outcome of a run *)

(** The exception that ends the round of [exchange], if one does: the
    [KeyError] of an exchange without endpoint, what [requests.get] raises
    other than a [RequestException], or what ends the pause. *)
Definition round_exn (E : env) (eps hdrs : dict string) (exchange : string) : option exn :=
  match dict_get eps exchange with
  | None => Some (KeyError exchange)
  | Some url =>
      match requests_get E url hdrs 10 with
      | Response _ => time_sleep E exchange
      | Fails e => if is_RequestException e then time_sleep E exchange else Some e
      end
  end.

(** The first exception of the rounds of [xs]. *)
Fixpoint first_exn (E : env) (eps hdrs : dict string) (xs : list string) : option exn :=
  match xs with
  | [] => None
  | x :: xs' =>
      match round_exn E eps hdrs x with
      | Some e => Some e
      | None => first_exn E eps hdrs xs'
      end
  end.

(** [d] is the result of the probe of [exchange]. *)
Definition probed (E : env) (eps hdrs : dict string) (exchange : string) (d : dict value) : Prop :=
  ∃ url r, dict_get eps exchange = Some url
    ∧ probe_outcome E exchange url (requests_get E url hdrs 10) = inl (d, r).

(** ** The report *)

(** The first line of the block of an exchange. *)
Definition block_title (exchange : string) : string :=
  nl +:+ upper exchange +:+ " Results:".

(** The three lines above the blocks. *)
Definition report_header : list string :=
  [nl +:+ repeat_str "=" 80; "LATENCY TEST RESULTS SUMMARY"; repeat_str "=" 80].

(** The block of the report for each of the three results of the prober. *)
Inductive report_block (E : env) (exchange : string) : dict value → list string → Prop :=
| block_success latency status_code :
    report_block E exchange (success_dict exchange latency status_code)
      [block_title exchange;
       "  Latency: " +:+ format_2f latency +:+ " ms";
       "  Status Code: " +:+ pretty status_code]
| block_failure status_code :
    report_block E exchange (failure_dict exchange status_code)
      [block_title exchange;
       "  Request failed";
       "  Status Code: " +:+ pretty status_code]
| block_error text :
    report_block E exchange (error_dict exchange text)
      [block_title exchange;
       "  Request failed";
       "  Error: " +:+ text;
       "  Status Code: None"].

(** ** JSON numbers *)

(** A value that [json.dump] writes as standard JSON: a float is finite,
    and so written by [float.__repr__], not as NaN or Infinity. *)
Definition json_safe (E : env) (v : value) : Prop :=
  match v with
  | VFloat f => is_finite f = true ∧ floatstr E f = float_repr E f
  | _ => True
  end.

(** ** More sample runs *)

Module Cases.

(** binance answers 200, the request to bybit raises an exception that is
    not a [RequestException]. *)
Definition crashing : env :=
  Sample.base (λ url, if String.eqb url Sample.binance_url then Response 200
                      else Fails (OtherException "boom")) IoOk.

(** The store with a second tester, at 4. *)
Definition two_testers : world := snd (init Sample.fresh_tester).

(** The store after a second run of the tests of [scenario_D]. *)
Definition retested : world :=
  snd (run_tests Sample.scenario_D 2%positive Sample.tested).

(** A store with one result dict, at 1, that has no status code. *)
Definition bare_result : world :=
  {| heap := {[1%positive := CResult [("success", VBool false)]]};
     log := []; console := []; disk := ∅ |}.

(** The blocks of the report of the sample run. *)
Definition tested_blocks : list (list string) :=
  [[nl +:+ "BINANCE Results:"; "  Latency: 62.50 ms"; "  Status Code: 200"];
   [nl +:+ "BYBIT Results:"; "  Request failed"; "  Status Code: 503"];
   [nl +:+ "GATEIO Results:"; "  Request failed"; "  Error: timed out";
    "  Status Code: None"]].

End Cases.

(** * Properties *)

(** ** Floats: the elapsed time in milliseconds

    The latency is [(end - start) * 1000] in binary64.  With the
    specification of the format ([SpecFloat]) the subtraction of two ordered
    readings is not negative, and neither it nor the product overflows as
    long as the readings are within [clock_bound]. *)


Module FloatFacts.

Lemma digits2_pos_size p : digits2_pos p = Pos.size p.
Proof. induction p; simpl; congruence. Qed.

Lemma digits2_log2 p : Z.pos (digits2_pos p) = Z.log2 (Z.pos p) + 1.
Proof.
  rewrite digits2_pos_size.
  destruct p; simpl; try reflexivity; lia.
Qed.

Lemma Zdigits2_log2 m : 0 < m → Zdigits2 m = Z.log2 m + 1.
Proof. destruct m; try lia. intros _. apply digits2_log2. Qed.

Lemma Zdigits2_nonneg m : 0 ≤ Zdigits2 m.
Proof. destruct m; simpl; lia. Qed.

Lemma shr_1_m mrs : 0 ≤ shr_m mrs → shr_m (shr_1 mrs) = Z.shiftr (shr_m mrs) 1.
Proof.
  destruct mrs as [m r s]. simpl. intros Hm.
  rewrite <- Z.div2_spec.
  destruct m as [|[p|p|]|p]; simpl; try reflexivity; lia.
Qed.

Lemma iter_shr_1_m p : ∀ mrs,
  0 ≤ shr_m mrs → shr_m (SpecFloat.iter_pos shr_1 p mrs) = Z.shiftr (shr_m mrs) (Z.pos p).
Proof.
  induction p as [p IH|p IH|]; intros mrs Hm; simpl.
  - assert (H1 : 0 ≤ shr_m (shr_1 mrs)).
    { rewrite shr_1_m by assumption. apply Z.shiftr_nonneg. assumption. }
    assert (H2 : 0 ≤ shr_m (SpecFloat.iter_pos shr_1 p (shr_1 mrs))).
    { rewrite IH by assumption. apply Z.shiftr_nonneg. assumption. }
    rewrite IH, IH, shr_1_m by assumption.
    rewrite !Z.shiftr_shiftr by lia. f_equal. lia.
  - assert (H2 : 0 ≤ shr_m (SpecFloat.iter_pos shr_1 p mrs)).
    { rewrite IH by assumption. apply Z.shiftr_nonneg. assumption. }
    rewrite IH, IH by assumption.
    rewrite Z.shiftr_shiftr by lia. f_equal. lia.
  - apply shr_1_m. assumption.
Qed.

Lemma shr_record_of_loc_m m l : shr_m (shr_record_of_loc m l) = m.
Proof. destruct l as [|[]]; reflexivity. Qed.

(** A shift to the right by [n] places, with the exponent moved along. *)
Lemma shr_fexp_spec m e l :
  0 ≤ m →
  ∃ n, 0 ≤ n ∧ n = Z.max 0 (fexp prec emax (Zdigits2 m + e) - e)
     ∧ shr_m (fst (shr_fexp prec emax m e l)) = Z.shiftr m n
     ∧ snd (shr_fexp prec emax m e l) = e + n.
Proof.
  intros Hm. unfold shr_fexp, shr.
  destruct (fexp prec emax (Zdigits2 m + e) - e) as [|p|p] eqn:Hn.
  - exists 0. simpl. rewrite shr_record_of_loc_m, Z.shiftr_0_r. lia.
  - exists (Z.pos p). simpl fst. simpl snd.
    rewrite iter_shr_1_m by (rewrite shr_record_of_loc_m; assumption).
    rewrite shr_record_of_loc_m. lia.
  - exists 0. simpl. rewrite shr_record_of_loc_m, Z.shiftr_0_r. lia.
Qed.

Lemma round_nearest_even_bounds m l :
  0 ≤ m → m ≤ round_nearest_even m l ≤ m + 1.
Proof.
  intros Hm. destruct l as [|[]]; simpl; try lia.
  destruct (Z.even m); lia.
Qed.

Lemma mag_shiftr m n e :
  0 < m → 0 ≤ n → 0 < Z.shiftr m n →
  Zdigits2 (Z.shiftr m n) + (e + n) = Zdigits2 m + e.
Proof.
  intros Hm Hn Hs.
  rewrite !Zdigits2_log2 by assumption.
  rewrite Z.log2_shiftr by assumption.
  assert (n ≤ Z.log2 m).
  { destruct (Z_le_gt_dec n (Z.log2 m)); [assumption|].
    rewrite Z.shiftr_eq_0 in Hs by lia. lia. }
  lia.
Qed.

Lemma fexp_le mag : fexp prec emax mag = Z.max (mag - 53) (-1074).
Proof. reflexivity. Qed.

(** Rounding a positive mantissa that is aligned and whose magnitude is at
    most [K] gives a zero or a finite float of the same sign, of magnitude
    at most [K + 1]: no overflow. *)
Lemma binary_round_aux_finite K sx m e l :
  0 ≤ K ≤ 1023 → 0 < m →
  e ≤ fexp prec emax (Zdigits2 m + e) →
  Zdigits2 m + e ≤ K →
  match binary_round_aux prec emax sx m e l with
  | S754_zero s => s = sx
  | S754_finite s m' e' => s = sx ∧ Z.pos (digits2_pos m') + e' ≤ K + 1
  | _ => False
  end.
Proof.
  intros HK Hm Hal Hmag. unfold binary_round_aux.
  destruct (shr_fexp_spec m e l) as (n & Hn0 & Hn & Hm1 & He1); [lia|].
  destruct (shr_fexp prec emax m e l) as [mrs1 e1]. simpl in Hm1, He1.
  set (m1 := round_nearest_even (shr_m mrs1) (loc_of_shr_record mrs1)).
  assert (Hs1 : 0 ≤ shr_m mrs1) by (rewrite Hm1; apply Z.shiftr_nonneg; lia).
  assert (Hr : shr_m mrs1 ≤ m1 ≤ shr_m mrs1 + 1)
    by (apply round_nearest_even_bounds; assumption).
  assert (He1' : e1 = fexp prec emax (Zdigits2 m + e)) by lia.
  assert (Hmag1 : Zdigits2 m1 + e1 ≤ K + 1).
  { destruct (Z.eq_dec m1 0) as [->|Hm10]; [simpl; rewrite He1', fexp_le; lia|].
    rewrite Zdigits2_log2 by lia.
    destruct (Z.eq_dec (shr_m mrs1) 0) as [Hz|Hnz].
    - assert (m1 = 1) by lia. subst m1. replace (round_nearest_even _ _) with 1.
      simpl. rewrite He1', fexp_le. lia.
    - assert (Hlog : Z.log2 m1 ≤ Z.log2 (shr_m mrs1) + 1).
      { etransitivity; [apply Z.log2_le_mono; apply Hr|].
        apply (Z.log2_succ_le (shr_m mrs1)). }
      assert (Hpos : 0 < Z.shiftr m n) by lia.
      pose proof (mag_shiftr m n e Hm Hn0 Hpos) as Hms.
      rewrite Zdigits2_log2 in Hms by lia. rewrite <- Hm1 in Hms. lia. }
  destruct (shr_fexp_spec m1 e1 loc_Exact) as (n2 & Hn20 & Hn2 & Hm2 & He2); [lia|].
  destruct (shr_fexp prec emax m1 e1 loc_Exact) as [mrs2 e2]. simpl in Hm2, He2.
  assert (Hs2 : 0 ≤ shr_m mrs2) by (rewrite Hm2; apply Z.shiftr_nonneg; lia).
  destruct (shr_m mrs2) as [|p|p] eqn:Hp; [reflexivity| |lia].
  assert (Hm1pos : 0 < m1).
  { destruct (Z.eq_dec m1 0) as [Hz|]; [|lia].
    rewrite Hz, Z.shiftr_0_l in Hm2. lia. }
  assert (Hmag2 : Zdigits2 (Z.pos p) + e2 = Zdigits2 m1 + e1).
  { rewrite Hm2, He2. apply mag_shiftr; lia. }
  simpl in Hmag2.
  assert (He2b : e2 ≤ 971).
  { rewrite !fexp_le in *. lia. }
  destruct (Z.leb_spec e2 (emax - prec)) as [_|Hgt].
  - split; [reflexivity|lia].
  - unfold emax, prec in Hgt. lia.
Qed.

Lemma pos_iter_xO m d : Z.pos (Pos.iter xO m d) = Z.pos m * 2 ^ Z.pos d.
Proof.
  rewrite (Pos.iter_swap_gen _ _ Z.pos xO (Z.mul 2)) by reflexivity.
  rewrite <- Z.shiftl_mul_pow2 by lia. reflexivity.
Qed.

Lemma shl_align_m m e ez :
  ez ≤ e → Z.pos (fst (shl_align m e ez)) = Z.pos m * 2 ^ (e - ez).
Proof.
  intros Hle. unfold shl_align.
  destruct (ez - e) as [|d|d] eqn:Hd; simpl; try lia.
  - replace (e - ez) with 0 by lia. lia.
  - rewrite pos_iter_xO. f_equal. f_equal. lia.
Qed.

(** Aligning to the exponent of the format keeps the magnitude. *)
Lemma shl_align_fexp m e :
  let '(mz, ez) := shl_align m e (fexp prec emax (Z.pos (digits2_pos m) + e)) in
  Z.pos (digits2_pos mz) + ez = Z.pos (digits2_pos m) + e
  ∧ ez ≤ fexp prec emax (Z.pos (digits2_pos mz) + ez).
Proof.
  unfold shl_align.
  destruct (fexp prec emax (Z.pos (digits2_pos m) + e) - e) as [|d|d] eqn:Hd.
  - split; lia.
  - split; lia.
  - assert (Hdig : Z.pos (digits2_pos (Pos.iter xO m d)) = Z.pos (digits2_pos m) + Z.pos d).
    { rewrite !digits2_log2, pos_iter_xO, Z.log2_mul_pow2 by lia. lia. }
    rewrite Hdig. split; [lia|].
    replace (Z.pos (digits2_pos m) + Z.pos d + fexp prec emax (Z.pos (digits2_pos m) + e))
      with (Z.pos (digits2_pos m) + e) by lia.
    lia.
Qed.

Lemma bounded_facts m e :
  bounded prec emax m e = true →
  Z.pos (digits2_pos m) ≤ 53
  ∧ (e = -1074 ∨ Z.pos (digits2_pos m) = 53)
  ∧ -1074 ≤ e ≤ 971.
Proof.
  unfold bounded, canonical_mantissa. intros H.
  apply andb_prop in H as [H1 H2].
  apply Z.eqb_eq in H1. apply Z.leb_le in H2.
  rewrite fexp_le in H1. unfold emax, prec in H2. lia.
Qed.

Lemma pos_lt_pow2_digits m : Z.pos m < 2 ^ Z.pos (digits2_pos m).
Proof.
  rewrite digits2_log2. apply (Z.log2_spec (Z.pos m)). lia.
Qed.

Lemma pos_ge_pow2_digits m : 2 ^ (Z.pos (digits2_pos m) - 1) ≤ Z.pos m.
Proof.
  rewrite digits2_log2. replace (Z.log2 (Z.pos m) + 1 - 1) with (Z.log2 (Z.pos m)) by lia.
  apply (Z.log2_spec (Z.pos m)). lia.
Qed.

(** Of two valid floats, the one with the smaller exponent has the smaller
    aligned mantissa. *)
Lemma aligned_lt m1 e1 m2 e2 :
  bounded prec emax m1 e1 = true → bounded prec emax m2 e2 = true →
  e1 < e2 →
  Z.pos m1 < Z.pos m2 * 2 ^ (e2 - e1).
Proof.
  intros H1 H2 Hlt.
  apply bounded_facts in H1 as (Hd1 & _ & He1).
  apply bounded_facts in H2 as (_ & [He2|Hd2] & _); [lia|].
  pose proof (pos_lt_pow2_digits m1) as Hm1.
  pose proof (pos_ge_pow2_digits m2) as Hm2. rewrite Hd2 in Hm2.
  assert (2 ^ Z.pos (digits2_pos m1) ≤ 2 ^ 53) by (apply Z.pow_le_mono_r; lia).
  assert (2 ^ 1 ≤ 2 ^ (e2 - e1)) by (apply Z.pow_le_mono_r; lia).
  change (2 ^ 53) with (2 * 2 ^ (53 - 1)) in *. change (2 ^ 1) with 2 in *.
  nia.
Qed.

(** The magnitude of an aligned mantissa. *)
Lemma aligned_lt_pow2 K m e ez :
  ez ≤ e → Z.pos (digits2_pos m) + e ≤ K →
  Z.pos m * 2 ^ (e - ez) < 2 ^ (K - ez).
Proof.
  intros Hle HK.
  pose proof (pos_lt_pow2_digits m) as Hm.
  assert (0 < 2 ^ (e - ez)) by (apply Z.pow_pos_nonneg; lia).
  assert (2 ^ (Z.pos (digits2_pos m) + (e - ez)) ≤ 2 ^ (K - ez))
    by (apply Z.pow_le_mono_r; lia).
  rewrite Z.pow_add_r in * by lia.
  nia.
Qed.

Lemma binary_round_finite K s m e :
  0 ≤ K ≤ 1023 → Z.pos (digits2_pos m) + e ≤ K →
  match binary_round prec emax s m e with
  | S754_zero s' => s' = s
  | S754_finite s' m' e' => s' = s ∧ Z.pos (digits2_pos m') + e' ≤ K + 1
  | _ => False
  end.
Proof.
  intros HK Hmag. unfold binary_round.
  pose proof (shl_align_fexp m e) as Hal.
  destruct (shl_align m e _) as [mz ez]. destruct Hal as [Hm Hle].
  apply binary_round_aux_finite; simpl; lia.
Qed.

Lemma SFsub_nonneg K x y :
  0 ≤ K ≤ 1022 →
  valid_binary x = true → valid_binary y = true →
  SFleb y x = true → mag_le K x → mag_le K y →
  nonneg_mag_le (K + 2) (SF64sub x y).
Proof.
  intros HK Vx Vy Hle Hx Hy.
  destruct x as [sx|sx| |sx mx ex], y as [sy|sy| |sy my ey]; simpl in Hx, Hy; try contradiction.
  - destruct sx, sy; exact I.
  - destruct sy; [|discriminate]. simpl. split; [reflexivity|lia].
  - destruct sx; [discriminate|]. simpl. split; [reflexivity|lia].
  - simpl in Vx, Vy. unfold SF64sub, SFsub.
    set (ez := Z.min ex ey).
    set (Mx := Z.pos (fst (shl_align mx ex ez))).
    set (My := Z.pos (fst (shl_align my ey ez))).
    assert (HMx : Mx = Z.pos mx * 2 ^ (ex - ez)) by (apply shl_align_m; lia).
    assert (HMy : My = Z.pos my * 2 ^ (ey - ez)) by (apply shl_align_m; lia).
    assert (Bx : Mx < 2 ^ (K - ez)) by (rewrite HMx; apply aligned_lt_pow2; lia).
    assert (By : My < 2 ^ (K - ez)) by (rewrite HMy; apply aligned_lt_pow2; lia).
    assert (Px : 0 < Mx) by (unfold Mx; lia).
    assert (Py : 0 < My) by (unfold My; lia).
    set (D := cond_Zopp sx Mx - cond_Zopp sy My).
    assert (HD : 0 ≤ D ≤ Mx + My).
    { unfold SFleb, SFcompare in Hle. unfold D.
      destruct sx, sy; simpl; try discriminate; try lia.
      - destruct (Z.compare_spec ey ex) as [Heq|Hlt|Hgt]; try discriminate.
        + subst ey. change (Pos.compare_cont Eq my mx) with (Pos.compare my mx) in Hle.
          destruct (Pos.compare_spec my mx); simpl in Hle; try discriminate;
            rewrite HMx, HMy; nia.
        + pose proof (aligned_lt mx ex my ey Vx Vy ltac:(lia)) as Hal.
          rewrite HMx, HMy. replace ez with ex by lia.
          rewrite Z.sub_diag, Z.mul_1_r. lia.
      - destruct (Z.compare_spec ey ex) as [Heq|Hlt|Hgt]; try discriminate.
        + subst ey. change (Pos.compare_cont Eq my mx) with (Pos.compare my mx) in Hle.
          destruct (Pos.compare_spec my mx); simpl in Hle; try discriminate;
            rewrite HMx, HMy; nia.
        + pose proof (aligned_lt my ey mx ex Vy Vx ltac:(lia)) as Hal.
          rewrite HMx, HMy. replace ez with ey by lia.
          rewrite Z.sub_diag, Z.mul_1_r. lia. }
    unfold binary_normalize. fold D.
    destruct D as [|d|d] eqn:HDeq; [exact I| |lia].
    assert (Hmag : Z.pos (digits2_pos d) + ez ≤ K + 1).
    { rewrite digits2_log2.
      assert (Z.log2 (Z.pos d) < K - ez + 1); [|lia].
      apply Z.log2_lt_pow2; [lia|].
      rewrite Z.pow_add_r by lia. change (2 ^ 1) with 2. lia. }
    pose proof (binary_round_finite (K + 1) false d ez ltac:(lia) Hmag) as Hr.
    destruct (binary_round prec emax false d ez); simpl; try contradiction; try exact I.
    destruct Hr as [-> Hr]. split; [reflexivity|lia].
Qed.

Lemma Prim2SF_1000 : Prim2SF 1000 = S754_finite false 8796093022208000 (-43).
Proof. reflexivity. Qed.

Lemma SFmul_1000_nonneg K x :
  0 ≤ K ≤ 1013 →
  valid_binary x = true → nonneg_mag_le K x →
  nonneg_mag_le (K + 11) (SF64mul x (Prim2SF 1000)).
Proof.
  intros HK Vx Hx. rewrite Prim2SF_1000.
  destruct x as [sx|sx| |sx mx ex]; simpl in Hx; try contradiction; [exact I|].
  destruct Hx as [-> Hmag]. simpl in Vx.
  apply bounded_facts in Vx as (Hd & _ & He).
  unfold SF64mul, SFmul. simpl xorb.
  set (my := 8796093022208000%positive).
  assert (Hlog : Z.log2 (Z.pos mx) + 52 ≤ Z.log2 (Z.pos (mx * my)) ≤ Z.log2 (Z.pos mx) + 53).
  { rewrite Pos2Z.inj_mul.
    assert (Hmy : Z.log2 (Z.pos my) = 52) by reflexivity.
    pose proof (Z.log2_mul_below (Z.pos mx) (Z.pos my)).
    pose proof (Z.log2_mul_above (Z.pos mx) (Z.pos my)).
    lia. }
  pose proof (digits2_log2 mx) as Hdx.
  pose proof (binary_round_aux_finite (K + 10) false (Z.pos (mx * my)) (ex + -43) loc_Exact) as Hr.
  simpl Zdigits2 in Hr. rewrite digits2_log2, fexp_le in Hr.
  specialize (Hr ltac:(lia) ltac:(lia) ltac:(lia) ltac:(lia)).
  destruct (binary_round_aux prec emax false (Z.pos (mx * my)) (ex + -43) loc_Exact);
    simpl; try contradiction; try exact I.
  destruct Hr as [-> Hr]. split; [reflexivity|lia].
Qed.

Lemma Prim2SF_clock_bound : Prim2SF clock_bound = S754_finite false 4503599627370496 944.
Proof. reflexivity. Qed.

Lemma abs_le_bound_mag t :
  (abs t <=? clock_bound)%float = true → mag_le 997 (Prim2SF t).
Proof.
  rewrite FloatAxioms.leb_spec, FloatAxioms.abs_spec, Prim2SF_clock_bound.
  pose proof (Prim2SF_valid t) as V.
  destruct (Prim2SF t) as [s|s| |s m e]; simpl; try discriminate; [trivial|].
  simpl in V. apply bounded_facts in V as (Hd & _ & He).
  unfold SFleb, SFcompare.
  destruct (Z.compare_spec e 944); try discriminate; intros _; lia.
Qed.

Lemma nonneg_mag_le_finite K f :
  nonneg_mag_le K (Prim2SF f) →
  is_finite f = true ∧ (0 <=? f)%float = true.
Proof.
  unfold is_finite, is_nan, is_infinity.
  rewrite FloatAxioms.leb_spec, !FloatAxioms.eqb_spec, FloatAxioms.abs_spec.
  change (Prim2SF 0) with (S754_zero false).
  change (Prim2SF infinity) with (S754_infinity false).
  destruct (Prim2SF f) as [s|s| |s m e]; simpl; try contradiction.
  - intros _. destruct s; split; reflexivity.
  - intros [-> _]. unfold SFeqb, SFleb, SFcompare.
    rewrite Z.compare_refl, Pcompare_refl. split; reflexivity.
Qed.

(** The elapsed time in milliseconds of a monotonic, bounded clock is a
    finite float that is not negative. *)
Lemma elapsed_ms_finite_nonneg t0 t1 :
  (t0 <=? t1)%float = true →
  (abs t0 <=? clock_bound)%float = true →
  (abs t1 <=? clock_bound)%float = true →
  is_finite ((t1 - t0) * 1000) = true ∧ (0 <=? (t1 - t0) * 1000)%float = true.
Proof.
  intros Hle H0 H1.
  apply (nonneg_mag_le_finite 1010).
  rewrite FloatAxioms.mul_spec.
  apply (SFmul_1000_nonneg 999); [lia|apply Prim2SF_valid|].
  rewrite FloatAxioms.sub_spec.
  apply (SFsub_nonneg 997); try apply Prim2SF_valid; try lia.
  - rewrite <- FloatAxioms.leb_spec. assumption.
  - apply abs_le_bound_mag. assumption.
  - apply abs_le_bound_mag. assumption.
Qed.

End FloatFacts.

(** ** Dicts and strings *)

Lemma dict_set_new {V} (d : dict V) k v :
  k ∉ keys d → dict_set d k v = (d ++ [(k, v)])%list.
Proof.
  induction d as [|[k' v'] d IH]; intros Hk; cbn; [reflexivity|].
  cbn in Hk. rewrite not_elem_of_cons in Hk. destruct Hk as [Hne Hk].
  destruct (String.eqb_spec k' k) as [->|_]; [congruence|].
  rewrite IH by assumption. reflexivity.
Qed.

Lemma keys_dict_set_new {V} (d : dict V) k v :
  k ∉ keys d → keys (dict_set d k v) = (keys d ++ [k])%list.
Proof.
  intros Hk. rewrite dict_set_new by assumption.
  unfold keys. rewrite map_app. reflexivity.
Qed.

Lemma dict_get_map {V W} (f : string → V → W) (d : dict V) k :
  dict_get (map (λ kv, (fst kv, f (fst kv) (snd kv))) d) k = f k <$> dict_get d k.
Proof.
  induction d as [|[k' v] d IH]; cbn; [reflexivity|].
  destruct (String.eqb_spec k' k) as [->|_]; [reflexivity|apply IH].
Qed.

Lemma keys_map {V W} (f : string * V → W) (d : dict V) :
  keys (map (λ kv, (fst kv, f kv)) d) = keys d.
Proof. unfold keys. rewrite map_map. reflexivity. Qed.

Lemma dict_get_set {V} (d : dict V) k v k' :
  dict_get (dict_set d k v) k'
  = if String.eqb k k' then Some v else dict_get d k'.
Proof.
  induction d as [|[k0 v0] d IH]; cbn.
  - destruct (String.eqb k k'); reflexivity.
  - destruct (String.eqb_spec k0 k) as [->|Hne]; cbn.
    + destruct (String.eqb k k'); reflexivity.
    + destruct (String.eqb_spec k0 k') as [->|Hne'].
      * destruct (String.eqb_spec k k'); [congruence|reflexivity].
      * apply IH.
Qed.

Lemma keys_dict_set_present {V} (d : dict V) k v :
  dict_has d k = true → keys (dict_set d k v) = keys d.
Proof.
  unfold dict_has, keys. induction d as [|[k0 v0] d IH]; cbn; [discriminate|].
  destruct (String.eqb_spec k0 k) as [->|Hne]; cbn; [reflexivity|].
  intros H. rewrite IH by assumption. reflexivity.
Qed.

Lemma append_assoc (a b c : string) : (a +:+ b) +:+ c = a +:+ (b +:+ c).
Proof.
  induction a as [|x a IH]; [reflexivity|].
  change (String x ((a +:+ b) +:+ c) = String x (a +:+ b +:+ c)).
  rewrite IH. reflexivity.
Qed.

Lemma append_empty_r (a : string) : a +:+ "" = a.
Proof.
  induction a as [|x a IH]; [reflexivity|].
  change (String x (a +:+ "") = String x a).
  rewrite IH. reflexivity.
Qed.

(** ** The store and the monad *)

Lemma fresh_lookup (h : gmap loc cell) : h !! fresh (dom h) = None.
Proof. apply not_elem_of_dom. apply is_fresh. Qed.

Lemma fresh_ne (h : gmap loc cell) l c : h !! l = Some c → l ≠ fresh (dom h).
Proof. intros H ->. rewrite fresh_lookup in H. discriminate. Qed.

Lemma bind_eq {A B} (m : M A) (k : A → M B) w :
  (m ≫= k) w =
  match m w with
  | (Ok a, w') => k a w'
  | (Raise e, w') => (Raise e, w')
  end.
Proof. reflexivity. Qed.

Lemma bind_ok {A B} (m : M A) (k : A → M B) w a w' :
  m w = (Ok a, w') → (m ≫= k) w = k a w'.
Proof. intros H. rewrite bind_eq, H. reflexivity. Qed.

Lemma bind_raise {A B} (m : M A) (k : A → M B) w e w' :
  m w = (Raise e, w') → (m ≫= k) w = (Raise e, w').
Proof. intros H. rewrite bind_eq, H. reflexivity. Qed.

Lemma load_tester_eq l w t :
  heap w !! l = Some (CTester t) → load_tester l w = (Ok t, w).
Proof. unfold load_tester. intros ->. reflexivity. Qed.

Lemma load_results_eq l w d :
  heap w !! l = Some (CResults d) → load_results l w = (Ok d, w).
Proof. unfold load_results. intros ->. reflexivity. Qed.

Lemma load_result_eq l w d :
  heap w !! l = Some (CResult d) → load_result l w = (Ok d, w).
Proof. unfold load_result. intros ->. reflexivity. Qed.

Lemma load_subscript l k w d v :
  heap w !! l = Some (CResult d) → dict_get d k = Some v →
  (r ← load_result l; subscript r k) w = (Ok v, w).
Proof.
  intros Hl Hk. rewrite (bind_ok _ _ _ _ _ (load_result_eq _ _ _ Hl)).
  unfold subscript. rewrite Hk. reflexivity.
Qed.

Lemma for_each_cons_ok {A} (x : A) l body w w' :
  body x w = (Ok tt, w') → for_each (x :: l) body w = for_each l body w'.
Proof. intros H. cbn [for_each]. rewrite bind_eq, H. reflexivity. Qed.

Lemma for_each_cons_raise {A} (x : A) l body w e w' :
  body x w = (Raise e, w') → for_each (x :: l) body w = (Raise e, w').
Proof. intros H. cbn [for_each]. rewrite bind_eq, H. reflexivity. Qed.

(** ** The prober *)

Lemma test_rest_latency_eq E self exchange w t url :
  heap w !! self = Some (CTester t) →
  dict_get (endpoints t) exchange = Some url →
  test_rest_latency E self exchange w =
  match probe_outcome E exchange url (requests_get E url (headers t) 10) with
  | inl (d, r) => (Ok (fresh (dom (heap w))), after_probe w exchange d r)
  | inr e => (Raise e, add_log (announce exchange) w)
  end.
Proof.
  intros Hs Hu. unfold test_rest_latency.
  rewrite (bind_ok _ _ _ _ _ (load_tester_eq _ _ _ Hs)).
  unfold subscript. rewrite Hu. rewrite bind_eq. cbn [mret M_ret].
  rewrite bind_eq. cbn [logger_info].
  unfold try_except, get, probe_outcome.
  destruct (requests_get E url (headers t) 10) as [s|e].
  - rewrite bind_eq. cbn [mret M_ret]. destruct (s =? 200).
    + rewrite bind_eq. cbn. unfold after_probe, add_log, set_heap. cbn.
      rewrite <- app_assoc. reflexivity.
    + rewrite bind_eq. cbn. unfold after_probe, add_log, set_heap. cbn.
      rewrite <- app_assoc. reflexivity.
  - rewrite bind_eq. cbn [raise]. unfold except.
    destruct (is_RequestException e); [|reflexivity].
    rewrite bind_eq. cbn. unfold after_probe, add_log, set_heap. cbn.
    rewrite <- app_assoc. reflexivity.
Qed.

(** A probe that returns has found the tester and the endpoint. *)
Lemma test_rest_latency_ok E self exchange w l w' :
  test_rest_latency E self exchange w = (Ok l, w') →
  ∃ t url d r,
    heap w !! self = Some (CTester t)
    ∧ dict_get (endpoints t) exchange = Some url
    ∧ probe_outcome E exchange url (requests_get E url (headers t) 10) = inl (d, r)
    ∧ l = fresh (dom (heap w))
    ∧ w' = after_probe w exchange d r.
Proof.
  intros H.
  destruct (heap w !! self) as [[| |t]|] eqn:Hs;
    try (unfold test_rest_latency, load_tester in H; rewrite bind_eq, Hs in H; discriminate).
  destruct (dict_get (endpoints t) exchange) as [url|] eqn:Hu.
  - rewrite (test_rest_latency_eq E self exchange w t url Hs Hu) in H.
    destruct (probe_outcome _ _ _ _) as [[d r]|e] eqn:Hp; [|discriminate].
    injection H as <- <-. exists t, url, d, r. auto.
  - unfold test_rest_latency in H.
    rewrite (bind_ok _ _ _ _ _ (load_tester_eq _ _ _ Hs)) in H.
    unfold subscript in H. rewrite Hu in H. discriminate.
Qed.

Lemma probe_outcome_cases E exchange url rep d r :
  probe_outcome E exchange url rep = inl (d, r) →
  (rep = Response 200
   ∧ d = success_dict exchange ((clock_after E url - clock_before E url) * 1000)%float 200)
  ∨ (∃ s, rep = Response s ∧ s ≠ 200 ∧ d = failure_dict exchange s)
  ∨ (∃ e, rep = Fails e ∧ is_RequestException e = true
          ∧ d = error_dict exchange (exn_str E e)).
Proof.
  unfold probe_outcome. destruct rep as [s|e].
  - destruct (Z.eqb_spec s 200) as [->|Hne]; intros [= <- <-].
    + left. auto.
    + right. left. exists s. auto.
  - destruct (is_RequestException e) eqn:He; intros [= <- <-].
    right. right. exists e. auto.
Qed.

Lemma after_probe_lookup w exchange d r :
  heap (after_probe w exchange d r) !! fresh (dom (heap w)) = Some (CResult d).
Proof. apply lookup_insert_eq. Qed.

(** Every result of the prober has the key status_code: the default of
    [result.get('status_code', 'N/A')] is never used for one. *)
Lemma prober_result_has_status_code E self exchange w l w' :
  test_rest_latency E self exchange w = (Ok l, w') →
  ∃ d, heap w' !! l = Some (CResult d) ∧ dict_has d "status_code" = true.
Proof.
  intros H.
  apply test_rest_latency_ok in H as (t & url & d & r & Hs & Hu & Hp & -> & ->).
  exists d. split; [apply lookup_insert_eq|].
  apply probe_outcome_cases in Hp as [[_ ->]|[(s & _ & _ & ->)|(e & _ & _ & ->)]];
    reflexivity.
Qed.

Lemma probe_record_not_announce E exchange url rep d r :
  probe_outcome E exchange url rep = inl (d, r) → is_announce r = false.
Proof.
  unfold probe_outcome. destruct rep as [s|e].
  - destruct (s =? 200); intros [= <- <-]; reflexivity.
  - destruct (is_RequestException e); intros [= <- <-]. reflexivity.
Qed.

Lemma reply_outcome E x url hdrs :
  match requests_get E url hdrs 10 with
  | Response _ => True
  | Fails e => is_RequestException e = true
  end →
  ∃ d r, probe_outcome E x url (requests_get E url hdrs 10) = inl (d, r).
Proof.
  unfold probe_outcome. destruct (requests_get E url hdrs 10) as [s|e]; intros H.
  - destruct (s =? 200); eexists _, _; reflexivity.
  - rewrite H. eexists _, _; reflexivity.
Qed.

Lemma completes_outcome E t exchange :
  completes E (endpoints t) (headers t) exchange →
  ∃ url d r, dict_get (endpoints t) exchange = Some url
    ∧ probe_outcome E exchange url (requests_get E url (headers t) 10) = inl (d, r)
    ∧ dict_get d "exchange" = Some (VStr exchange)
    ∧ time_sleep E exchange = None.
Proof.
  intros (url & Hu & Hr & Hs). exists url. unfold probe_outcome.
  destruct (requests_get E url (headers t) 10) as [s|e].
  - destruct (s =? 200); eexists _, _; repeat split; auto.
  - rewrite Hr. eexists _, _; repeat split; auto.
Qed.

(** C1: for every result the prober returns, success is true exactly when
    status_code is 200, and status_code is 200 exactly when latency is a
    finite float that is not negative; the clock is monotonic and its
    readings are within [clock_bound]. *)
Theorem probe_success_iff_200_iff_finite_latency E self exchange w l w' :
  test_rest_latency E self exchange w = (Ok l, w') →
  (∀ t url, heap w !! self = Some (CTester t) →
            dict_get (endpoints t) exchange = Some url → clock_ok E url) →
  ∃ d, heap w' !! l = Some (CResult d)
    ∧ (dict_get d "success" = Some (VBool true)
       ↔ dict_get d "status_code" = Some (VInt 200))
    ∧ (dict_get d "status_code" = Some (VInt 200)
       ↔ ∃ v, dict_get d "latency" = Some v ∧ finite_nonneg v).
Proof.
  intros H Hclock.
  apply test_rest_latency_ok in H as (t & url & d & r & Hs & Hu & Hp & -> & ->).
  exists d. split; [apply after_probe_lookup|].
  specialize (Hclock t url Hs Hu) as (Hmono & Hb0 & Hb1).
  apply probe_outcome_cases in Hp as [[_ ->]|[(s & _ & Hne & ->)|(e & _ & _ & ->)]]; cbn.
  - split; [tauto|]. split; [|reflexivity]. intros _.
    eexists. split; [reflexivity|]. eexists. split; [reflexivity|].
    apply FloatFacts.elapsed_ms_finite_nonneg; assumption.
  - split; [split; intros [=]; congruence|].
    split; [intros [=]; congruence|].
    intros (v & [= <-] & f & [= <-] & Hfin & _). discriminate.
  - split; [split; intros [=]|].
    split; [intros [=]|].
    intros (v & [= <-] & f & [= <-] & Hfin & _). discriminate.
Qed.

(** C3: a returned result whose success is false, after a status other
    than 200 or after a transport error, has the float +infinity as its
    latency. *)
Theorem failed_probe_latency_is_inf E self exchange w l w' :
  test_rest_latency E self exchange w = (Ok l, w') →
  ∃ d, heap w' !! l = Some (CResult d)
    ∧ (dict_get d "success" = Some (VBool true)
       ∨ dict_get d "success" = Some (VBool false))
    ∧ (dict_get d "success" = Some (VBool false) →
       dict_get d "latency" = Some (VFloat inf)).
Proof.
  intros H.
  apply test_rest_latency_ok in H as (t & url & d & r & Hs & Hu & Hp & -> & ->).
  exists d. split; [apply after_probe_lookup|].
  apply probe_outcome_cases in Hp as [[_ ->]|[(s & _ & Hne & ->)|(e & _ & _ & ->)]]; cbn.
  - split; [left; reflexivity|]. intros [=].
  - split; [right; reflexivity|]. reflexivity.
  - split; [right; reflexivity|]. reflexivity.
Qed.

(** C4: when the request ends in a transport-level failure (a
    [RequestException]), the prober returns a result with success false,
    latency +infinity, status_code None (the absent value) and error the
    text of the exception. *)
Theorem transport_failure_result E self exchange w t url e :
  heap w !! self = Some (CTester t) →
  dict_get (endpoints t) exchange = Some url →
  requests_get E url (headers t) 10 = Fails e →
  is_RequestException e = true →
  ∃ l w' d,
    test_rest_latency E self exchange w = (Ok l, w')
    ∧ heap w' !! l = Some (CResult d)
    ∧ dict_get d "success" = Some (VBool false)
    ∧ dict_get d "latency" = Some (VFloat inf)
    ∧ dict_get d "status_code" = Some VNone
    ∧ dict_get d "error" = Some (VStr (exn_str E e)).
Proof.
  intros Hs Hu Hr He.
  rewrite (test_rest_latency_eq E self exchange w t url Hs Hu), Hr.
  unfold probe_outcome. rewrite He.
  eexists _, _, _. split; [reflexivity|].
  split; [apply after_probe_lookup|]. cbn. auto.
Qed.

(** ** The loop of [run_tests] *)

Lemma run_tests_body_eq E self results exchange w t url entries :
  heap w !! self = Some (CTester t) →
  heap w !! results = Some (CResults entries) →
  dict_get (endpoints t) exchange = Some url →
  run_tests_body E self results exchange w =
  match probe_outcome E exchange url (requests_get E url (headers t) 10) with
  | inl (d, r) =>
      (match time_sleep E exchange with Some e => Raise e | None => Ok tt end,
       after_round w results entries exchange d r)
  | inr e =>
      (Raise e,
       add_log (announce exchange)
         (add_log banner (add_log (testing exchange) (add_log banner_nl w))))
  end.
Proof.
  intros Hs Hr Hu. unfold run_tests_body.
  rewrite bind_eq. cbn [logger_info].
  rewrite bind_eq. cbn [logger_info].
  rewrite bind_eq. cbn [logger_info].
  rewrite bind_eq.
  rewrite (test_rest_latency_eq E self exchange _ t url) by assumption.
  destruct (probe_outcome _ _ _ _) as [[d r]|e]; [|reflexivity].
  rewrite bind_eq.
  assert (Hne : results ≠ fresh (dom (heap w))) by (eapply fresh_ne; eassumption).
  rewrite (load_results_eq _ _ entries)
    by (cbn; rewrite lookup_insert_ne by congruence; assumption).
  rewrite bind_eq. cbn [store]. unfold sleep.
  assert (Hw : set_heap
            <[results:=CResults
                         (dict_set entries exchange
                            (fresh
                               (dom
                                  (heap
                                     (add_log banner
                                        (add_log (testing exchange) (add_log banner_nl w)))))))]>
            (after_probe
               (add_log banner (add_log (testing exchange) (add_log banner_nl w)))
               exchange d r) = after_round w results entries exchange d r).
  { unfold after_round, after_probe, set_heap, add_log. cbn.
    rewrite <- !app_assoc. reflexivity. }
  change (add_log (INFO, repeat_str "=" 50)) with (add_log banner).
  change (add_log (INFO, "Testing " +:+ upper exchange)) with (add_log (testing exchange)).
  change (add_log (INFO, nl +:+ repeat_str "=" 50)) with (add_log banner_nl).
  rewrite Hw.
  destruct (time_sleep E exchange); reflexivity.
Qed.

Lemma after_round_lookup_results w results entries exchange d r :
  heap (after_round w results entries exchange d r) !! results
  = Some (CResults (dict_set entries exchange (fresh (dom (heap w))))).
Proof. apply lookup_insert_eq. Qed.

Lemma after_round_lookup_new w results entries exchange d r c :
  heap w !! results = Some c →
  heap (after_round w results entries exchange d r) !! fresh (dom (heap w))
  = Some (CResult d).
Proof.
  intros H. cbn. rewrite lookup_insert_ne by (eapply fresh_ne; eassumption).
  apply lookup_insert_eq.
Qed.

Lemma after_round_lookup_old w results entries exchange d r l c :
  heap w !! l = Some c → l ≠ results →
  heap (after_round w results entries exchange d r) !! l = Some c.
Proof.
  intros H Hne. cbn. rewrite lookup_insert_ne by congruence.
  rewrite lookup_insert_ne; [assumption|].
  intros <-. rewrite fresh_lookup in H. discriminate.
Qed.

Lemma run_tests_body_ok E self results exchange w t entries :
  heap w !! self = Some (CTester t) →
  heap w !! results = Some (CResults entries) →
  completes E (endpoints t) (headers t) exchange →
  ∃ d r, run_tests_body E self results exchange w
         = (Ok tt, after_round w results entries exchange d r)
    ∧ dict_get d "exchange" = Some (VStr exchange).
Proof.
  intros Hs Hr Hc.
  apply completes_outcome in Hc as (url & d & r & Hu & Hp & Hd & Hsl).
  exists d, r. split; [|assumption].
  rewrite (run_tests_body_eq E self results exchange w t url entries) by assumption.
  rewrite Hp, Hsl. reflexivity.
Qed.

(** C5: a run of the loop whose probes and pauses complete returns a
    results dict with exactly the entries binance, bybit, gateio, in this
    order, each bound to its own new result dict, which carries the
    exchange id; the probes are made in the same order. *)
Theorem run_tests_one_result_per_exchange E self w t :
  heap w !! self = Some (CTester t) →
  (∀ x, x ∈ ["binance"; "bybit"; "gateio"] →
        completes E (endpoints t) (headers t) x) →
  ∃ rs w' l1 l2 l3 d1 d2 d3 r1 r2 r3,
    run_tests E self w = (Ok rs, w')
    ∧ heap w' !! self
      = Some (CTester {| results := rs; endpoints := endpoints t; headers := headers t |})
    ∧ heap w' !! rs
      = Some (CResults [("binance", l1); ("bybit", l2); ("gateio", l3)])
    ∧ heap w' !! l1 = Some (CResult d1) ∧ dict_get d1 "exchange" = Some (VStr "binance")
    ∧ heap w' !! l2 = Some (CResult d2) ∧ dict_get d2 "exchange" = Some (VStr "bybit")
    ∧ heap w' !! l3 = Some (CResult d3) ∧ dict_get d3 "exchange" = Some (VStr "gateio")
    ∧ NoDup [l1; l2; l3]
    ∧ log w' = (log w ++
        [(INFO, "Starting latency tests...");
         banner_nl; testing "binance"; banner; announce "binance"; r1;
         banner_nl; testing "bybit"; banner; announce "bybit"; r2;
         banner_nl; testing "gateio"; banner; announce "gateio"; r3])%list.
Proof.
  intros Hs Hc.
  unfold run_tests.
  set (w0 := add_log (INFO, "Starting latency tests...") w).
  set (rs := fresh (dom (heap w))).
  set (w1 := set_heap <[rs := CResults []]> w0).
  assert (Hrs : self ≠ rs) by (eapply fresh_ne; eassumption).
  assert (Hs1 : heap w1 !! self = Some (CTester t))
    by (cbn; rewrite lookup_insert_ne by congruence; assumption).
  assert (Hr1 : heap w1 !! rs = Some (CResults [])) by apply lookup_insert_eq.
  destruct (run_tests_body_ok E self rs "binance" w1 t [] Hs1 Hr1) as (d1 & r1 & Hb1 & Hd1);
    [apply Hc; set_solver|].
  set (l1 := fresh (dom (heap w1))) in *.
  set (w2 := after_round w1 rs [] "binance" d1 r1) in *.
  assert (Hs2 : heap w2 !! self = Some (CTester t))
    by (apply after_round_lookup_old; assumption).
  assert (Hr2 : heap w2 !! rs = Some (CResults [("binance", l1)]))
    by apply after_round_lookup_results.
  assert (Hl12 : heap w2 !! l1 = Some (CResult d1))
    by (eapply after_round_lookup_new; eassumption).
  destruct (run_tests_body_ok E self rs "bybit" w2 t _ Hs2 Hr2) as (d2 & r2 & Hb2 & Hd2);
    [apply Hc; set_solver|].
  set (l2 := fresh (dom (heap w2))) in *.
  set (w3 := after_round w2 rs [("binance", l1)] "bybit" d2 r2) in *.
  assert (Hne1 : l1 ≠ rs) by (intros Heq; rewrite Heq, Hr2 in Hl12; discriminate).
  assert (Hs3 : heap w3 !! self = Some (CTester t))
    by (apply after_round_lookup_old; assumption).
  assert (Hr3 : heap w3 !! rs = Some (CResults [("binance", l1); ("bybit", l2)]))
    by apply after_round_lookup_results.
  assert (Hl13 : heap w3 !! l1 = Some (CResult d1))
    by (apply after_round_lookup_old; assumption).
  assert (Hl23 : heap w3 !! l2 = Some (CResult d2))
    by (eapply after_round_lookup_new; eassumption).
  destruct (run_tests_body_ok E self rs "gateio" w3 t _ Hs3 Hr3) as (d3 & r3 & Hb3 & Hd3);
    [apply Hc; set_solver|].
  set (l3 := fresh (dom (heap w3))) in *.
  set (w4 := after_round w3 rs [("binance", l1); ("bybit", l2)] "gateio" d3 r3) in *.
  assert (Hne2 : l2 ≠ rs) by (intros Heq; rewrite Heq, Hr3 in Hl23; discriminate).
  assert (Hs4 : heap w4 !! self = Some (CTester t))
    by (apply after_round_lookup_old; assumption).
  assert (Hr4 : heap w4 !! rs
                = Some (CResults [("binance", l1); ("bybit", l2); ("gateio", l3)]))
    by apply after_round_lookup_results.
  assert (Hl14 : heap w4 !! l1 = Some (CResult d1))
    by (apply after_round_lookup_old; assumption).
  assert (Hl24 : heap w4 !! l2 = Some (CResult d2))
    by (apply after_round_lookup_old; assumption).
  assert (Hl34 : heap w4 !! l3 = Some (CResult d3))
    by (eapply after_round_lookup_new; eassumption).
  assert (Hne3 : l3 ≠ rs) by (intros Heq; rewrite Heq, Hr4 in Hl34; discriminate).
  assert (H12 : l1 ≠ l2) by (eapply fresh_ne; eassumption).
  assert (H13 : l1 ≠ l3) by (eapply fresh_ne; eassumption).
  assert (H23 : l2 ≠ l3) by (eapply fresh_ne; eassumption).
  exists rs, (set_heap <[self := CTester {| results := rs; endpoints := endpoints t;
                                            headers := headers t |}]> w4).
  exists l1, l2, l3, d1, d2, d3, r1, r2, r3.
  split.
  { rewrite bind_eq. cbn [logger_info]. fold w0.
    rewrite bind_eq. cbn [alloc dict_lit fold_left].
    change (fresh (dom (heap w0))) with rs.
    change (set_heap <[rs := CResults []]> w0) with w1.
    rewrite bind_eq. cbn [for_each].
    rewrite bind_eq, Hb1. rewrite bind_eq, Hb2. rewrite bind_eq, Hb3.
    cbn [mret M_ret].
    rewrite (bind_ok _ _ _ _ _ (load_tester_eq _ _ _ Hs4)).
    rewrite bind_eq. reflexivity. }
  cbn [heap set_heap].
  split; [apply lookup_insert_eq|].
  rewrite !lookup_insert_ne by congruence.
  repeat (split; [assumption|]).
  split.
  { apply NoDup_cons_2; [rewrite !elem_of_cons, elem_of_nil; intuition congruence|].
    apply NoDup_cons_2; [rewrite elem_of_cons, elem_of_nil; intuition congruence|].
    apply NoDup_singleton. }
  cbn. rewrite <- !app_assoc. reflexivity.
Qed.

(** ** The report *)

Ltac print_step Hl :=
  first [ erewrite bind_ok by (eapply load_subscript; [exact Hl|reflexivity])
        | erewrite bind_ok by (eapply load_result_eq; exact Hl)
        | rewrite bind_eq; cbn [print format_value_2f mret M_ret] ];
  cbn [truthy subscript dict_has dict_get String.eqb Ascii.eqb Bool.eqb
       success_dict failure_dict error_dict mret M_ret].

Lemma print_results_body_success E exchange l w latency status_code :
  heap w !! l = Some (CResult (success_dict exchange latency status_code)) →
  print_results_body E (exchange, l) w
  = (Ok tt, add_lines [nl +:+ upper exchange +:+ " Results:";
                       "  Latency: " +:+ format_2f latency +:+ " ms";
                       "  Status Code: " +:+ pretty status_code] w).
Proof.
  intros Hl. unfold print_results_body.
  repeat print_step Hl.
  unfold print, add_lines, add_console. cbn. rewrite <- !app_assoc. reflexivity.
Qed.

Lemma print_results_body_failure E exchange l w status_code :
  heap w !! l = Some (CResult (failure_dict exchange status_code)) →
  print_results_body E (exchange, l) w
  = (Ok tt, add_lines [nl +:+ upper exchange +:+ " Results:";
                       "  Request failed";
                       "  Status Code: " +:+ pretty status_code] w).
Proof.
  intros Hl. unfold print_results_body.
  repeat print_step Hl.
  unfold print, add_lines, add_console. cbn. rewrite <- !app_assoc. reflexivity.
Qed.

(** The block of a result without status code ends with the line
    "Status Code: None": the key is there, bound to None, and the default
    "N/A" of [get] is not used. *)
Lemma print_results_body_error E exchange l w text :
  heap w !! l = Some (CResult (error_dict exchange text)) →
  print_results_body E (exchange, l) w
  = (Ok tt, add_lines [nl +:+ upper exchange +:+ " Results:";
                       "  Request failed";
                       "  Error: " +:+ text;
                       "  Status Code: None"] w).
Proof.
  intros Hl. unfold print_results_body.
  repeat print_step Hl.
  unfold print, add_lines, add_console. cbn. rewrite <- !app_assoc. reflexivity.
Qed.

(** ** What saving leaves as it is *)

Section Frames.

(** The store whose objects are to be kept. *)
Context (h0 : gmap loc cell).

Lemma frames_ret {A} (a : A) : frames h0 (mret a).
Proof. intros w H. exact H. Qed.

Lemma frames_raise {A} e : frames h0 (@raise A e).
Proof. intros w H. exact H. Qed.

Lemma frames_bind {A B} (m : M A) (k : A → M B) :
  frames h0 m → (∀ a, frames h0 (k a)) → frames h0 (m ≫= k).
Proof.
  intros Hm Hk w H. rewrite bind_eq. specialize (Hm w H).
  destruct (m w) as [[a|e] w1]; simpl in *; [apply Hk|]; assumption.
Qed.

Lemma frames_alloc_bind {B} c (k : loc → M B) :
  (∀ l, h0 !! l = None → frames h0 (k l)) → frames h0 (alloc c ≫= k).
Proof.
  intros Hk w H. rewrite bind_eq. cbn [alloc].
  assert (Hf : h0 !! fresh (dom (heap w)) = None).
  { destruct (h0 !! fresh (dom (heap w))) as [c'|] eqn:Hl; [|reflexivity].
    apply (lookup_weaken _ _ _ _ Hl) in H. rewrite fresh_lookup in H. discriminate. }
  apply (Hk _ Hf). cbn. apply insert_subseteq_r; assumption.
Qed.

Lemma frames_store l c : h0 !! l = None → frames h0 (store l c).
Proof. intros Hl w H. cbn. apply insert_subseteq_r; assumption. Qed.

Lemma frames_load_result l : frames h0 (load_result l).
Proof. intros w H. unfold load_result. destruct (heap w !! l) as [[]|]; exact H. Qed.

Lemma frames_load_results l : frames h0 (load_results l).
Proof. intros w H. unfold load_results. destruct (heap w !! l) as [[]|]; exact H. Qed.

Lemma frames_load_tester l : frames h0 (load_tester l).
Proof. intros w H. unfold load_tester. destruct (heap w !! l) as [[]|]; exact H. Qed.

Lemma frames_logger_info s : frames h0 (logger_info s).
Proof. intros w H. exact H. Qed.

Lemma frames_logger_warning s : frames h0 (logger_warning s).
Proof. intros w H. exact H. Qed.

Lemma frames_logger_error s : frames h0 (logger_error s).
Proof. intros w H. exact H. Qed.

Lemma frames_try_except {A} (m : M A) handler :
  frames h0 m → (∀ e h, handler e = Some h → frames h0 h) →
  frames h0 (try_except m handler).
Proof.
  intros Hm Hh w H. unfold try_except. specialize (Hm w H).
  destruct (m w) as [[a|e] w1]; simpl in *; [assumption|].
  destruct (handler e) as [h|] eqn:He; [|assumption].
  apply (Hh e h He). assumption.
Qed.

Lemma frames_for_each {A} (l : list A) body :
  (∀ x, frames h0 (body x)) → frames h0 (for_each l body).
Proof.
  intros Hb. induction l as [|x l IH]; cbn [for_each].
  - apply frames_ret.
  - apply frames_bind; [apply Hb|]. intros _. apply IH.
Qed.

Lemma frames_json_of_entries entries : frames h0 (json_of_entries entries).
Proof.
  induction entries as [|[k l] entries IH]; cbn [json_of_entries].
  - apply frames_ret.
  - apply frames_bind; [apply frames_load_result|]. intros d.
    apply frames_bind; [apply IH|]. intros items. apply frames_ret.
Qed.

Lemma frames_open_and_dump E filename obj : frames h0 (open_and_dump E filename obj).
Proof.
  intros w H. unfold open_and_dump. destruct (fs E filename); exact H.
Qed.

(** One step through a computation: a primitive that keeps the store, or a
    bind, whose allocation gives an address outside [h0]. *)
Ltac frames_step :=
  first
    [ apply frames_ret | apply frames_raise
    | apply frames_load_result | apply frames_load_results | apply frames_load_tester
    | apply frames_logger_info | apply frames_logger_warning | apply frames_logger_error
    | apply frames_json_of_entries | apply frames_open_and_dump
    | apply frames_store; assumption
    | apply frames_for_each; intros [? ?]
    | apply frames_alloc_bind; intros ? ?
    | apply frames_bind; [|intros ?] ].

Lemma frames_save_results_to_file E self filename :
  frames h0 (save_results_to_file E self filename).
Proof.
  unfold save_results_to_file.
  apply frames_bind; [frames_step|intros t].
  apply frames_bind; [frames_step|intros rs].
  destruct rs as [|item rs]; [frames_step|].
  apply frames_try_except.
  - unfold json_of_results, save_body. repeat frames_step.
    match goal with
    | |- frames _ (if ?c then _ else _) => destruct c
    end; frames_step.
  - intros e h He. unfold except in He.
    destruct (is_Exception e); [|discriminate].
    injection He as <-. frames_step.
Qed.

End Frames.

(** C10: saving leaves every object of the store as it is, the results
    dict and every result dict in particular: the substitution is made in
    copies, so a latency that is the float +infinity before the save is the
    float +infinity after it, not the string. *)
Theorem save_leaves_results_unchanged E self filename w l c :
  heap w !! l = Some c →
  heap (snd (save_results_to_file E self filename w)) !! l = Some c
  ∧ ∀ d, c = CResult d → dict_get d "latency" = Some (VFloat inf) →
         ∃ d', heap (snd (save_results_to_file E self filename w)) !! l = Some (CResult d')
               ∧ dict_get d' "latency" = Some (VFloat inf).
Proof.
  intros Hl.
  assert (H : heap (snd (save_results_to_file E self filename w)) !! l = Some c).
  { eapply lookup_weaken; [exact Hl|].
    apply frames_save_results_to_file. reflexivity. }
  split; [exact H|].
  intros d -> Hd. exists d. split; assumption.
Qed.

(** ** What saving writes *)

Lemma entries_view_preserved h h' entries rs :
  entries_view h entries rs →
  (∀ l d, h !! l = Some (CResult d) → h' !! l = Some (CResult d)) →
  entries_view h' entries rs.
Proof.
  intros Hv Hp. unfold entries_view in *.
  induction Hv as [|e r entries rs [Hk Hl] Hv IH]; constructor; auto.
Qed.

Lemma entries_view_keys h entries rs :
  entries_view h entries rs → keys entries = keys rs.
Proof.
  intros Hv. unfold entries_view in Hv.
  induction Hv as [|e r entries rs [Hk _] _ IH]; unfold keys in *; cbn; congruence.
Qed.

Lemma json_of_entries_view entries rs w :
  entries_view (heap w) entries rs →
  json_of_entries entries w
  = (Ok (map (λ r, (fst r, json_of_result (snd r))) rs), w).
Proof.
  intros Hv. unfold entries_view in Hv.
  induction Hv as [|[k l] [k' d] entries rs [Hk Hl] Hv IH]; cbn [json_of_entries];
    [reflexivity|].
  cbn in Hk, Hl. subst k'.
  rewrite (bind_ok _ _ _ _ _ (load_result_eq _ _ _ Hl)).
  rewrite (bind_ok _ _ _ _ _ IH). reflexivity.
Qed.

Lemma save_body_eq srs key l w d acc :
  heap w !! l = Some (CResult d) →
  heap w !! srs = Some (CResults acc) →
  key ∉ keys acc →
  ∃ w', save_body srs (key, l) w = (Ok tt, w')
    ∧ heap w' !! srs = Some (CResults (acc ++ [(key, fresh (dom (heap w)))])%list)
    ∧ heap w' !! fresh (dom (heap w)) = Some (CResult (serializable d))
    ∧ (∀ l0 d0, heap w !! l0 = Some (CResult d0) → heap w' !! l0 = Some (CResult d0))
    ∧ log w' = log w ∧ console w' = console w ∧ disk w' = disk w.
Proof.
  intros Hl Hs Hk. unfold save_body.
  rewrite (bind_ok _ _ _ _ _ (load_result_eq _ _ _ Hl)).
  rewrite bind_eq. cbn [alloc].
  set (l' := fresh (dom (heap w))).
  assert (Hf : heap w !! l' = None) by apply fresh_lookup.
  assert (Hne : srs ≠ l') by (eapply fresh_ne; eassumption).
  set (w1 := set_heap <[l' := CResult d]> w).
  assert (H1 : heap w1 !! l' = Some (CResult d)) by apply lookup_insert_eq.
  rewrite (bind_ok _ _ _ _ _ (load_result_eq _ _ _ H1)).
  set (w2 := if match dict_get d "latency" with Some v => eq_inf v | None => false end
             then set_heap <[l' := CResult (dict_set d "latency" (VStr "inf"))]> w1
             else w1).
  assert (H2 : heap w2 = <[l' := CResult (serializable d)]> (heap w)).
  { unfold w2, serializable.
    destruct (match dict_get d "latency" with Some v => eq_inf v | None => false end);
      cbn; [apply insert_insert_eq|reflexivity]. }
  assert (Hw2 : log w2 = log w ∧ console w2 = console w ∧ disk w2 = disk w).
  { unfold w2.
    destruct (match dict_get d "latency" with Some v => eq_inf v | None => false end);
      cbn; auto. }
  rewrite bind_eq.
  assert (Hif : (if match dict_get d "latency" with Some v => eq_inf v | None => false end
                 then store l' (CResult (dict_set d "latency" (VStr "inf")))
                 else mret ()) w1 = (Ok tt, w2)).
  { unfold w2.
    destruct (match dict_get d "latency" with Some v => eq_inf v | None => false end);
      reflexivity. }
  rewrite Hif.
  assert (Hs2 : heap w2 !! srs = Some (CResults acc))
    by (rewrite H2, lookup_insert_ne by congruence; assumption).
  rewrite (bind_ok _ _ _ _ _ (load_results_eq _ _ _ Hs2)).
  cbn [store]. rewrite dict_set_new by assumption.
  eexists. split; [reflexivity|]. cbn [heap set_heap log console disk].
  rewrite H2.
  split; [apply lookup_insert_eq|].
  split; [rewrite lookup_insert_ne by congruence; apply lookup_insert_eq|].
  split.
  { intros l0 d0 H0.
    rewrite !lookup_insert_ne; [assumption| |]; intros <-; congruence. }
  tauto.
Qed.

Lemma save_loop srs : ∀ entries rs w acc accv,
  entries_view (heap w) entries rs →
  heap w !! srs = Some (CResults acc) →
  entries_view (heap w) acc accv →
  NoDup (keys acc ++ keys entries)%list →
  ∃ w' acc',
    for_each entries (save_body srs) w = (Ok tt, w')
    ∧ heap w' !! srs = Some (CResults (acc ++ acc')%list)
    ∧ entries_view (heap w') (acc ++ acc')%list
        (accv ++ map (λ r, (fst r, serializable (snd r))) rs)%list
    ∧ log w' = log w ∧ console w' = console w ∧ disk w' = disk w.
Proof.
  induction entries as [|[key l] entries IH]; intros rs w acc accv Hv Hs Hacc Hnd.
  - apply Forall2_nil_inv_l in Hv as ->. exists w, []. cbn [for_each map].
    rewrite !app_nil_r. repeat split; auto.
  - apply Forall2_cons_inv_l in Hv as ([key' d] & rs' & [Hk Hl] & Hv & ->).
    cbn in Hk, Hl. subst key'.
    assert (Hkey : key ∉ keys acc).
    { apply NoDup_app in Hnd as (_ & Hdis & _). intros Hin.
      apply (Hdis key Hin). cbn. left. }
    destruct (save_body_eq srs key l w d acc Hl Hs Hkey)
      as (w1 & Hb & Hs1 & Hl1 & Hp & Hlog & Hcon & Hdisk).
    destruct (IH rs' w1 (acc ++ [(key, fresh (dom (heap w)))])%list
                (accv ++ [(key, serializable d)])%list) as (w' & acc' & Hf & Hs' & Hv' & Hw').
    + eapply entries_view_preserved; eassumption.
    + assumption.
    + apply Forall2_app.
      * eapply entries_view_preserved; eassumption.
      * constructor; [|constructor]. cbn. auto.
    + unfold keys in *. rewrite map_app. cbn. rewrite <- app_assoc. exact Hnd.
    + exists w', ((key, fresh (dom (heap w))) :: acc').
      cbn [for_each]. rewrite (bind_ok _ _ _ _ _ Hb).
      split; [exact Hf|].
      rewrite <- app_assoc in Hs', Hv'. cbn in Hs', Hv'.
      split; [exact Hs'|].
      split; [cbn [map]; rewrite <- app_assoc in Hv'; exact Hv'|].
      destruct Hw' as (-> & -> & ->). auto.
Qed.

(** Saving a results dict that is not empty: the copies are made, and what
    happens next is up to the file system. *)
Lemma save_results_to_file_eq E self filename w t entries rs :
  heap w !! self = Some (CTester t) →
  heap w !! results t = Some (CResults entries) →
  entries_view (heap w) entries rs →
  NoDup (keys entries) →
  rs ≠ [] →
  ∃ wl, log wl = log w ∧ console wl = console w ∧ disk wl = disk w
    ∧ save_results_to_file E self filename w =
      match fs E (save_filename E filename) with
      | IoOk =>
          (Ok tt,
           add_log (INFO, "Results saved to " +:+ save_filename E filename)
             (set_disk <[save_filename E filename
                          := Complete (dumps E 2 (saved_object E rs))]> wl))
      | IoOpenError text =>
          (Ok tt, add_log (ERROR, "Failed to save results: " +:+ text) wl)
      | IoWriteError text =>
          (Ok tt,
           add_log (ERROR, "Failed to save results: " +:+ text)
             (set_disk <[save_filename E filename := Partial]> wl))
      end.
Proof.
  intros Hs Hr Hv Hnd Hne.
  unfold save_results_to_file.
  rewrite (bind_ok _ _ _ _ _ (load_tester_eq _ _ _ Hs)).
  rewrite (bind_ok _ _ _ _ _ (load_results_eq _ _ _ Hr)).
  destruct entries as [|e0 entries0] eqn:Hent.
  { apply Forall2_nil_inv_l in Hv. contradiction. }
  rewrite <- Hent in *. clear Hent e0 entries0.
  set (srs := fresh (dom (heap w))).
  set (w1 := set_heap <[srs := CResults []]> w).
  assert (Hv1 : entries_view (heap w1) entries rs).
  { eapply entries_view_preserved; [exact Hv|]. intros l d Hl. cbn.
    rewrite lookup_insert_ne; [assumption|]. intros <-.
    unfold srs in Hl. rewrite fresh_lookup in Hl. discriminate. }
  destruct (save_loop srs entries rs w1 [] []) as (wl & acc' & Hf & Hsl & Hvl & Hlog & Hcon & Hdisk).
  { exact Hv1. }
  { apply lookup_insert_eq. }
  { constructor. }
  { exact Hnd. }
  cbn [app] in Hsl, Hvl.
  exists wl. repeat (split; [assumption|]).
  unfold try_except.
  rewrite bind_eq. cbn [alloc dict_lit fold_left]. fold srs. fold w1.
  rewrite bind_eq, Hf.
  unfold json_of_results.
  rewrite bind_eq.
  rewrite (bind_ok _ _ _ _ _ (load_results_eq _ _ _ Hsl)).
  rewrite (bind_ok _ _ _ _ _ (json_of_entries_view _ _ _ Hvl)).
  cbn [mret M_ret]. rewrite map_map. cbn [fst snd].
  rewrite bind_eq. unfold open_and_dump.
  change (JObject (dict_lit _)) with (saved_object E rs).
  destruct (fs E (save_filename E filename)); reflexivity.
Qed.

(** The saved copy, field by field: the keys and their order are those of
    the result, and each field holds what the spec says. *)
Lemma serializable_spec d :
  keys (serializable d) = keys d
  ∧ ∀ f v, dict_get d f = Some v →
           dict_get (serializable d) f = Some (Spec.saved_field f v).
Proof.
  unfold serializable, Spec.saved_field.
  destruct (dict_get d "latency") as [v0|] eqn:Hl.
  - destruct (eq_inf v0) eqn:Hinf.
    + split.
      * apply keys_dict_set_present. unfold dict_has. rewrite Hl. reflexivity.
      * intros f v Hf. rewrite dict_get_set.
        destruct (String.eqb_spec "latency" f) as [<-|Hne].
        -- rewrite Hl in Hf. injection Hf as <-. rewrite Hinf. reflexivity.
        -- rewrite Hf. destruct (String.eqb_spec f "latency"); [congruence|reflexivity].
    + split; [reflexivity|]. intros f v Hf. rewrite Hf.
      destruct (String.eqb_spec f "latency") as [->|]; [|reflexivity].
      rewrite Hl in Hf. injection Hf as <-. rewrite Hinf. reflexivity.
  - split; [reflexivity|]. intros f v Hf. rewrite Hf.
    destruct (String.eqb_spec f "latency") as [->|]; [congruence|reflexivity].
Qed.

Lemma dumps_top_level E timestamp items :
  dumps E 2 (JObject [("timestamp", JScalar (VStr timestamp)); ("results", JObject items)])
  = top_level_text E timestamp items.
Proof.
  unfold dumps, top_level_text.
  change (iterencode E 2 0 (JObject [("timestamp", JScalar (VStr timestamp));
                                     ("results", JObject items)]))
    with ("{" +:+ newline_indent 2 1
          +:+ (("" +:+ encode_str "timestamp" +:+ ": " +:+ encode_str timestamp
                +:+ ("," +:+ newline_indent 2 1) +:+ encode_str "results" +:+ ": "
                +:+ iterencode E 2 1 (JObject items) +:+ "")
          +:+ newline_indent 2 0 +:+ "}")).
  rewrite append_empty_r, !append_assoc. reflexivity.
Qed.

(** C6: with an empty results dict, [print_results] only logs one warning,
    and [save_results_to_file] only logs one warning: nothing is printed,
    no file is made or written, and the store is as before. *)
Theorem empty_results_only_warn E self filename w t :
  heap w !! self = Some (CTester t) →
  heap w !! results t = Some (CResults []) →
  ∃ wp ws,
    print_results E self w = (Ok tt, wp)
    ∧ log wp = (log w ++ [(WARNING, "No results to display. Run tests first.")])%list
    ∧ console wp = console w ∧ disk wp = disk w ∧ heap wp = heap w
    ∧ save_results_to_file E self filename w = (Ok tt, ws)
    ∧ log ws = (log w ++ [(WARNING, "No results to save.")])%list
    ∧ console ws = console w ∧ disk ws = disk w ∧ heap ws = heap w.
Proof.
  intros Hs Hr.
  exists (add_log (WARNING, "No results to display. Run tests first.") w),
         (add_log (WARNING, "No results to save.") w).
  split.
  { unfold print_results.
    rewrite (bind_ok _ _ _ _ _ (load_tester_eq _ _ _ Hs)).
    rewrite (bind_ok _ _ _ _ _ (load_results_eq _ _ _ Hr)). reflexivity. }
  repeat (split; [reflexivity|]).
  split.
  { unfold save_results_to_file.
    rewrite (bind_ok _ _ _ _ _ (load_tester_eq _ _ _ Hs)).
    rewrite (bind_ok _ _ _ _ _ (load_results_eq _ _ _ Hr)). reflexivity. }
  repeat split; reflexivity.
Qed.

(** C7: when opening or writing the file fails, [save_results_to_file]
    logs the error and returns without raising; every object of the store,
    the results in particular, is as before, and so is the console. *)
Theorem save_io_failure_is_logged E self filename w rs text :
  results_at w self rs → rs ≠ [] →
  fs E (save_filename E filename) = IoOpenError text
  ∨ fs E (save_filename E filename) = IoWriteError text →
  ∃ w',
    save_results_to_file E self filename w = (Ok tt, w')
    ∧ log w' = (log w ++ [(ERROR, "Failed to save results: " +:+ text)])%list
    ∧ console w' = console w
    ∧ heap w ⊆ heap w'
    ∧ results_at w' self rs.
Proof.
  intros (t & entries & Hs & Hr & Hv & Hnd) Hne Hfs.
  assert (Hnde : NoDup (keys entries)) by (rewrite (entries_view_keys _ _ _ Hv); exact Hnd).
  destruct (save_results_to_file_eq E self filename w t entries rs Hs Hr Hv Hnde Hne)
    as (wl & Hlog & Hcon & Hdisk & Heq).
  pose proof (frames_save_results_to_file (heap w) E self filename w ltac:(reflexivity)) as Hfr.
  assert (Hpost : ∀ w', heap w ⊆ heap w' → results_at w' self rs).
  { intros w' Hsub. exists t, entries.
    split; [eapply lookup_weaken; eassumption|].
    split; [eapply lookup_weaken; eassumption|].
    split; [|exact Hnd].
    eapply entries_view_preserved; [exact Hv|].
    intros l d Hl. eapply lookup_weaken; eassumption. }
  rewrite Heq in *.
  destruct Hfs as [Hfs|Hfs]; rewrite Hfs in *; cbn in Hfr;
    eexists; (split; [reflexivity|]); cbn; rewrite ?Hlog, ?Hcon; auto.
Qed.

(** C2: saving results that are not empty, when the file system accepts the
    write, writes one JSON object to the file, as text indented by two
    spaces per level: its keys are timestamp (the ISO time of the save) and
    results; results maps each exchange, in order, to an object with the
    fields of its result, in order; a latency that is the float +infinity
    is written as the string inf, every other field as it is. *)
Theorem save_writes_json E self filename w rs :
  results_at w self rs → rs ≠ [] →
  fs E (save_filename E filename) = IoOk →
  ∃ w' items,
    save_results_to_file E self filename w = (Ok tt, w')
    ∧ disk w' !! save_filename E filename
      = Some (Complete (dumps E 2 (JObject [
          ("timestamp", JScalar (VStr (isoformat (now_timestamp E))));
          ("results", JObject items)])))
    ∧ dumps E 2 (JObject [
          ("timestamp", JScalar (VStr (isoformat (now_timestamp E))));
          ("results", JObject items)])
      = top_level_text E (isoformat (now_timestamp E)) items
    ∧ keys items = keys rs
    ∧ ∀ k d, dict_get rs k = Some d →
        ∃ fields,
          dict_get items k = Some (JObject fields)
          ∧ keys fields = keys d
          ∧ ∀ f v, dict_get d f = Some v →
                   dict_get fields f = Some (JScalar (Spec.saved_field f v)).
Proof.
  intros (t & entries & Hs & Hr & Hv & Hnd) Hne Hfs.
  assert (Hnde : NoDup (keys entries)) by (rewrite (entries_view_keys _ _ _ Hv); exact Hnd).
  destruct (save_results_to_file_eq E self filename w t entries rs Hs Hr Hv Hnde Hne)
    as (wl & Hlog & Hcon & Hdisk & Heq).
  rewrite Hfs in Heq.
  eexists _, (map (λ r, (fst r, json_of_result (serializable (snd r)))) rs).
  split; [exact Heq|].
  split; [cbn; apply lookup_insert_eq|].
  split; [apply dumps_top_level|].
  split; [apply (keys_map (λ r, json_of_result (serializable (snd r))))|].
  intros k d Hk.
  rewrite (dict_get_map (λ _ d, json_of_result (serializable d))), Hk. cbn.
  eexists. split; [reflexivity|].
  destruct (serializable_spec d) as [Hkeys Hfields].
  split; [rewrite (keys_map (λ kv, JScalar (snd kv))); exact Hkeys|].
  intros f v Hf.
  rewrite (dict_get_map (λ _ v, JScalar v)), (Hfields f v Hf). reflexivity.
Qed.

(** ** Interrupts *)

(** Rounds that complete: the tester and every other old object stay, the
    results dict of the run gets one entry per round, and one request is
    announced per round. *)
Lemma rounds_complete E self rsl t : ∀ xs w entries,
  heap w !! self = Some (CTester t) →
  heap w !! rsl = Some (CResults entries) →
  self ≠ rsl →
  Forall (completes E (endpoints t) (headers t)) xs →
  Forall (λ x, x ∈ exchanges) xs →
  NoDup (keys entries ++ xs)%list →
  ∃ w' entries' lg,
    (∀ rest, for_each (xs ++ rest)%list (run_tests_body E self rsl) w
             = for_each rest (run_tests_body E self rsl) w')
    ∧ heap w' !! self = Some (CTester t)
    ∧ heap w' !! rsl = Some (CResults entries')
    ∧ keys entries' = (keys entries ++ xs)%list
    ∧ (∀ l c, heap w !! l = Some c → l ≠ rsl → heap w' !! l = Some c)
    ∧ log w' = (log w ++ lg)%list
    ∧ List.filter is_announce lg = map announce xs
    ∧ console w' = console w ∧ disk w' = disk w.
Proof.
  induction xs as [|x xs IH]; intros w entries Hs Hr Hne Hc Hx Hnd.
  - exists w, entries, []. rewrite !app_nil_r. repeat split; auto.
  - apply Forall_cons in Hc as [Hcx Hc]. apply Forall_cons in Hx as [Hxx Hx].
    destruct (completes_outcome E t x Hcx) as (url & d & r & Hu & Hp & _ & Hsl).
    pose proof (run_tests_body_eq E self rsl x w t url entries Hs Hr Hu) as Hb.
    rewrite Hp, Hsl in Hb.
    set (w1 := after_round w rsl entries x d r) in *.
    assert (Hkx : x ∉ keys entries).
    { apply NoDup_app in Hnd as (_ & Hdis & _). intros Hin.
      apply (Hdis x Hin). left. }
    assert (Hk1 : keys (dict_set entries x (fresh (dom (heap w))))
                  = (keys entries ++ [x])%list)
      by (apply keys_dict_set_new; exact Hkx).
    destruct (IH w1 (dict_set entries x (fresh (dom (heap w)))))
      as (w' & entries' & lg & Hf & Hs' & Hr' & Hk' & Hold & Hlog & Hfil & Hcon & Hdisk).
    { apply after_round_lookup_old; assumption. }
    { apply after_round_lookup_results. }
    { assumption. }
    { assumption. }
    { assumption. }
    { rewrite Hk1, <- app_assoc. exact Hnd. }
    exists w', entries', ([banner_nl; testing x; banner; announce x; r] ++ lg)%list.
    split.
    { intros rest. cbn [app]. rewrite (for_each_cons_ok _ _ _ _ _ Hb). apply Hf. }
    split; [assumption|]. split; [assumption|].
    split; [rewrite Hk', Hk1, <- app_assoc; reflexivity|].
    split.
    { intros l c Hl Hlne. apply Hold; [|assumption].
      apply after_round_lookup_old; assumption. }
    split.
    { rewrite Hlog. cbn [after_round w1 log]. rewrite <- app_assoc. reflexivity. }
    split.
    { rewrite List.filter_app, Hfil.
      unfold exchanges in Hxx.
      rewrite !elem_of_cons, elem_of_nil in Hxx.
      destruct Hxx as [->|[->|[->|[]]]]; cbn;
        rewrite (probe_record_not_announce _ _ _ _ _ _ Hp); reflexivity. }
    rewrite Hcon, Hdisk. auto.
Qed.

(** The round in which the interrupt arrives: the request has been
    announced, and the exception leaves the loop body; the result is in the
    dict of the run if the probe has completed, and only then. *)
Lemma round_interrupted E self rsl t x url w entries p :
  heap w !! self = Some (CTester t) →
  heap w !! rsl = Some (CResults entries) →
  x ∈ exchanges →
  x ∉ keys entries →
  dict_get (endpoints t) x = Some url →
  match p with
  | DuringProbe _ => requests_get E url (headers t) 10 = Fails KeyboardInterrupt
  | DuringPause _ =>
      match requests_get E url (headers t) 10 with
      | Response _ => True
      | Fails e => is_RequestException e = true
      end
      ∧ time_sleep E x = Some KeyboardInterrupt
  end →
  ∃ w' entries' lg,
    run_tests_body E self rsl x w = (Raise KeyboardInterrupt, w')
    ∧ heap w' !! rsl = Some (CResults entries')
    ∧ keys entries'
      = (keys entries ++ match p with DuringProbe _ => [] | DuringPause _ => [x] end)%list
    ∧ (∀ l c, heap w !! l = Some c → l ≠ rsl → heap w' !! l = Some c)
    ∧ log w' = (log w ++ lg)%list
    ∧ List.filter is_announce lg = [announce x]
    ∧ console w' = console w ∧ disk w' = disk w.
Proof.
  intros Hs Hr Hx Hkx Hu Hp.
  pose proof (run_tests_body_eq E self rsl x w t url entries Hs Hr Hu) as Hb.
  unfold exchanges in Hx. rewrite !elem_of_cons, elem_of_nil in Hx.
  destruct p as [n|n].
  - rewrite Hp in Hb. cbn [probe_outcome is_RequestException] in Hb.
    eexists _, entries, [banner_nl; testing x; banner; announce x].
    split; [exact Hb|].
    split; [exact Hr|].
    split; [rewrite app_nil_r; reflexivity|].
    split; [intros l c Hl _; exact Hl|].
    split; [cbn; rewrite <- !app_assoc; reflexivity|].
    split; [|auto].
    destruct Hx as [->|[->|[->|[]]]]; reflexivity.
  - destruct Hp as [Hrep Hsl].
    destruct (reply_outcome E x url (headers t) Hrep) as (d & r & Hp).
    rewrite Hp, Hsl in Hb.
    eexists _, _, [banner_nl; testing x; banner; announce x; r].
    split; [exact Hb|].
    split; [apply after_round_lookup_results|].
    split; [apply keys_dict_set_new; exact Hkx|].
    split; [intros l c Hl Hne; apply after_round_lookup_old; assumption|].
    split; [reflexivity|].
    split; [|auto].
    destruct Hx as [->|[->|[->|[]]]]; cbn;
      rewrite (probe_record_not_announce _ _ _ _ _ _ Hp); reflexivity.
Qed.

Lemma init_empty_world :
  init empty_world
  = (Ok 2%positive,
     {| heap := <[2%positive := CTester {| results := 1%positive;
                                           endpoints := default_endpoints;
                                           headers := default_headers |}]>
                  (<[1%positive := CResults []]> ∅);
        log := []; console := []; disk := ∅ |}).
Proof. reflexivity. Qed.

Lemma NoDup_exchanges : NoDup exchanges.
Proof. apply (bool_decide_unpack _). vm_compute. exact I. Qed.

(** C9, as the code has it: when [KeyboardInterrupt] arrives during a
    request or a pause of the run, [main] returns normally and logs the
    interrupt as its last record, without a trace on the console; the
    requests announced are those up to the interrupted round; nothing is
    printed and no file is written.  The dict of the run holds the results
    of the probes that have completed and no other, and the tester is not
    bound to it: the results dict of the tester is still empty. *)
Theorem interrupted_run_is_logged_and_reports_nothing E p :
  interrupted_at E default_endpoints default_headers p →
  ∃ w' lg self t run entries,
    main E empty_world = (Ok tt, w')
    ∧ log w' = (lg ++ [(INFO, "Test interrupted by user")])%list
    ∧ List.filter is_announce lg = map announce (take (S (point_index p)) exchanges)
    ∧ console w' = []
    ∧ disk w' = ∅
    ∧ fst (init empty_world) = Ok self
    ∧ heap w' !! self = Some (CTester t)
    ∧ heap w' !! results t = Some (CResults [])
    ∧ heap w' !! run = Some (CResults entries)
    ∧ keys entries = take (completed p) exchanges.
Proof.
  intros (Hdone & x & url & Hx & Hu & Hp).
  set (t0 := {| results := 1%positive; endpoints := default_endpoints;
                headers := default_headers |}).
  set (wi := {| heap := <[2%positive := CTester t0]> (<[1%positive := CResults []]> ∅);
                log := []; console := []; disk := ∅ |}).
  set (w0 := add_log (INFO, "Starting latency tests...") wi).
  set (rsl := fresh (dom (heap wi))).
  set (w1 := set_heap <[rsl := CResults []]> w0).
  assert (Hs0 : heap wi !! 2%positive = Some (CTester t0)) by reflexivity.
  assert (Hr0 : heap wi !! 1%positive = Some (CResults [])) by reflexivity.
  assert (Hne2 : 2%positive ≠ rsl) by (eapply fresh_ne; exact Hs0).
  assert (Hne1 : 1%positive ≠ rsl) by (eapply fresh_ne; exact Hr0).
  assert (Hs1 : heap w1 !! 2%positive = Some (CTester t0))
    by (cbn; rewrite lookup_insert_ne by congruence; exact Hs0).
  assert (Hr1 : heap w1 !! 1%positive = Some (CResults []))
    by (cbn; rewrite lookup_insert_ne by congruence; exact Hr0).
  assert (Hl1 : heap w1 !! rsl = Some (CResults [])) by apply lookup_insert_eq.
  assert (Hxs : Forall (λ x, x ∈ exchanges) (take (point_index p) exchanges)).
  { apply Forall_forall. intros y Hy. eapply subseteq_take. exact Hy. }
  assert (Hsplit : exchanges
                   = (take (point_index p) exchanges ++ x :: drop (S (point_index p)) exchanges)%list).
  { symmetry. apply take_drop_middle. exact Hx. }
  pose proof NoDup_exchanges as Hnd. rewrite Hsplit in Hnd.
  apply NoDup_app in Hnd as (Hnd1 & Hdis & _).
  destruct (rounds_complete E 2%positive rsl t0 (take (point_index p) exchanges) w1 []
              Hs1 Hl1 Hne2 Hdone Hxs Hnd1)
    as (w2 & entries & lg1 & Hf & Hs2 & Hl2 & Hk2 & Hold2 & Hlog2 & Hfil2 & Hcon2 & Hdisk2).
  cbn [keys map app] in Hk2.
  assert (Hxin : x ∈ exchanges) by (eapply list_elem_of_lookup_2; exact Hx).
  assert (Hkx : x ∉ keys entries).
  { rewrite Hk2. intros Hin. apply (Hdis x Hin). left. }
  destruct (round_interrupted E 2%positive rsl t0 x url w2 entries p Hs2 Hl2 Hxin Hkx Hu)
    as (w3 & entries3 & lg2 & Hb & Hl3 & Hk3 & Hold3 & Hlog3 & Hfil3 & Hcon3 & Hdisk3).
  { destruct p; exact Hp. }
  assert (Hrun : run_tests E 2%positive wi = (Raise KeyboardInterrupt, w3)).
  { unfold run_tests.
    rewrite bind_eq. cbn [logger_info]. fold w0.
    rewrite bind_eq. cbn [alloc dict_lit fold_left].
    change (fresh (dom (heap w0))) with rsl.
    change (set_heap <[rsl := CResults []]> w0) with w1.
    rewrite bind_eq.
    change ["binance"; "bybit"; "gateio"] with exchanges.
    rewrite Hsplit at 1. rewrite Hf.
    rewrite (for_each_cons_raise _ _ _ _ _ _ Hb). reflexivity. }
  exists (add_log (INFO, "Test interrupted by user") w3).
  exists ([(INFO, "Starting latency tests...")] ++ lg1 ++ lg2)%list, 2%positive, t0.
  exists rsl, entries3.
  split.
  { unfold main. rewrite (bind_ok _ _ _ _ _ init_empty_world).
    fold t0. fold wi. unfold try_except.
    rewrite (bind_raise _ _ _ _ _ Hrun). reflexivity. }
  split.
  { cbn [add_log log]. rewrite Hlog3, Hlog2. cbn. rewrite <- !app_assoc. reflexivity. }
  split.
  { rewrite !List.filter_app, Hfil2, Hfil3. cbn [List.filter is_announce].
    rewrite (take_S_r _ _ _ Hx), map_app. reflexivity. }
  split; [cbn; rewrite Hcon3, Hcon2; reflexivity|].
  split; [cbn; rewrite Hdisk3, Hdisk2; reflexivity|].
  split; [reflexivity|].
  split.
  { cbn [add_log heap]. apply Hold3; [|assumption]. assumption. }
  split.
  { cbn [add_log heap results t0]. apply Hold3; [|assumption].
    apply Hold2; assumption. }
  split; [exact Hl3|].
  rewrite Hk3, Hk2. destruct p as [n|n]; cbn [completed point_index] in *.
  - apply app_nil_r.
  - symmetry. apply take_S_r. exact Hx.
Qed.

(** ** The sample runs *)

(** C8 (the code at a result without status code): in the report of a run
    whose request to gateio times out, the last line of the gateio block
    is "Status Code: None", not the "N/A" marker. *)
Theorem report_prints_None_for_absent_status_code :
  console (snd (main Sample.scenario_D empty_world))
  = [Printed (nl +:+ repeat_str "=" 80);
     Printed "LATENCY TEST RESULTS SUMMARY";
     Printed (repeat_str "=" 80);
     Printed (nl +:+ "BINANCE Results:");
     Printed "  Latency: 62.50 ms";
     Printed "  Status Code: 200";
     Printed (nl +:+ "BYBIT Results:");
     Printed "  Request failed";
     Printed "  Status Code: 503";
     Printed (nl +:+ "GATEIO Results:");
     Printed "  Request failed";
     Printed "  Error: timed out";
     Printed "  Status Code: None"].
Proof. vm_compute. reflexivity. Qed.

(** C9 (counterexample): the interrupt arrives during the request to bybit,
    after the probe of binance has completed; [main] returns, and the
    report is not reached: nothing is printed and nothing is written. *)
Lemma interrupt_skips_the_report :
  interrupted_at Sample.interrupted default_endpoints default_headers (DuringProbe 1)
  ∧ fst (main Sample.interrupted empty_world) = Ok tt
  ∧ report_reached (snd (main Sample.interrupted empty_world)) = false
  ∧ console (snd (main Sample.interrupted empty_world)) = []
  ∧ disk (snd (main Sample.interrupted empty_world)) = ∅.
Proof.
  split.
  - split.
    + constructor; [|constructor].
      eexists. split; [vm_compute; reflexivity|]. split; vm_compute; auto.
    + exists "bybit", "https://api.bybit.com/v5/market/time".
      repeat split; vm_compute; reflexivity.
  - repeat split; vm_compute; reflexivity.
Qed.

(** The tester of the sample run holds the three results. *)
Lemma sample_results_at : results_at Sample.tested 2%positive Sample.tested_results.
Proof.
  eexists _, _.
  split; [vm_compute; reflexivity|].
  split; [vm_compute; reflexivity|].
  split; [repeat constructor|].
  apply (bool_decide_unpack _). vm_compute. exact I.
Defined.

(** The object that is saved after the sample run: the two failed results
    carry the string, the other fields are those of the results. *)
Example sample_saved_object :
  saved_object Sample.scenario_D Sample.tested_results
  = JObject [
      ("timestamp", JScalar (VStr "2024-01-02T03:04:05.000678"));
      ("results", JObject [
         ("binance", JObject [
            ("exchange", JScalar (VStr "binance"));
            ("test_type", JScalar (VStr "rest"));
            ("latency", JScalar (VFloat 62.5));
            ("status_code", JScalar (VInt 200));
            ("success", JScalar (VBool true))]);
         ("bybit", JObject [
            ("exchange", JScalar (VStr "bybit"));
            ("test_type", JScalar (VStr "rest"));
            ("latency", JScalar (VStr "inf"));
            ("status_code", JScalar (VInt 503));
            ("success", JScalar (VBool false))]);
         ("gateio", JObject [
            ("exchange", JScalar (VStr "gateio"));
            ("test_type", JScalar (VStr "rest"));
            ("latency", JScalar (VStr "inf"));
            ("status_code", JScalar VNone);
            ("success", JScalar (VBool false));
            ("error", JScalar (VStr "timed out"))])])].
Proof. vm_compute. reflexivity. Qed.

(** The file of the sample run holds the text of this object. *)
Example sample_file :
  disk (snd (main Sample.scenario_D empty_world))
    !! "latency_test_results_20240102_030405.json"
  = Some (Complete (dumps Sample.scenario_D 2
                      (saved_object Sample.scenario_D Sample.tested_results))).
Proof. vm_compute. reflexivity. Qed.

(** C1 at the probe of binance, which answers 200 after 62.5 ms. *)
Lemma probe_success_iff_200_iff_finite_latency_witness :
  ∃ d, heap (snd (test_rest_latency Sample.scenario_D 2%positive "binance" Sample.fresh_tester))
         !! 3%positive = Some (CResult d)
    ∧ (dict_get d "success" = Some (VBool true)
       ↔ dict_get d "status_code" = Some (VInt 200))
    ∧ (dict_get d "status_code" = Some (VInt 200)
       ↔ ∃ v, dict_get d "latency" = Some v ∧ finite_nonneg v).
Proof.
  apply (probe_success_iff_200_iff_finite_latency Sample.scenario_D 2%positive "binance"
           Sample.fresh_tester).
  - vm_compute. reflexivity.
  - intros t url _ _. repeat split; vm_compute; reflexivity.
Defined.

(** C3 at the probe of bybit, which answers 503. *)
Lemma failed_probe_latency_is_inf_witness :
  ∃ d, heap (snd (test_rest_latency Sample.scenario_D 2%positive "bybit" Sample.fresh_tester))
         !! 3%positive = Some (CResult d)
    ∧ (dict_get d "success" = Some (VBool true)
       ∨ dict_get d "success" = Some (VBool false))
    ∧ (dict_get d "success" = Some (VBool false) →
       dict_get d "latency" = Some (VFloat inf)).
Proof.
  apply (failed_probe_latency_is_inf Sample.scenario_D 2%positive "bybit"
           Sample.fresh_tester).
  vm_compute. reflexivity.
Defined.

(** C4 at the probe of gateio, whose request times out. *)
Lemma transport_failure_result_witness :
  ∃ l w' d,
    test_rest_latency Sample.scenario_D 2%positive "gateio" Sample.fresh_tester = (Ok l, w')
    ∧ heap w' !! l = Some (CResult d)
    ∧ dict_get d "success" = Some (VBool false)
    ∧ dict_get d "latency" = Some (VFloat inf)
    ∧ dict_get d "status_code" = Some VNone
    ∧ dict_get d "error" = Some (VStr "timed out").
Proof.
  apply (transport_failure_result Sample.scenario_D 2%positive "gateio" Sample.fresh_tester
           {| results := 1%positive; endpoints := default_endpoints;
              headers := default_headers |}
           "https://api.gateio.ws/api/v4/spot/time" (RequestException "timed out")).
  - vm_compute. reflexivity.
  - vm_compute. reflexivity.
  - vm_compute. reflexivity.
  - reflexivity.
Defined.

(** Every probe and pause of the sample run completes. *)
Lemma sample_completes x :
  x ∈ ["binance"; "bybit"; "gateio"] →
  completes Sample.scenario_D default_endpoints default_headers x.
Proof.
  rewrite !elem_of_cons, elem_of_nil.
  intros [->|[->|[->|[]]]]; eexists; (split; [vm_compute; reflexivity|]);
    split; vm_compute; auto.
Defined.

(** C5 at the sample run. *)
Lemma run_tests_one_result_per_exchange_witness :
  ∃ rs w' l1 l2 l3 d1 d2 d3 r1 r2 r3,
    run_tests Sample.scenario_D 2%positive Sample.fresh_tester = (Ok rs, w')
    ∧ heap w' !! 2%positive
      = Some (CTester {| results := rs; endpoints := default_endpoints;
                         headers := default_headers |})
    ∧ heap w' !! rs
      = Some (CResults [("binance", l1); ("bybit", l2); ("gateio", l3)])
    ∧ heap w' !! l1 = Some (CResult d1) ∧ dict_get d1 "exchange" = Some (VStr "binance")
    ∧ heap w' !! l2 = Some (CResult d2) ∧ dict_get d2 "exchange" = Some (VStr "bybit")
    ∧ heap w' !! l3 = Some (CResult d3) ∧ dict_get d3 "exchange" = Some (VStr "gateio")
    ∧ NoDup [l1; l2; l3]
    ∧ log w' = (log Sample.fresh_tester ++
        [(INFO, "Starting latency tests...");
         banner_nl; testing "binance"; banner; announce "binance"; r1;
         banner_nl; testing "bybit"; banner; announce "bybit"; r2;
         banner_nl; testing "gateio"; banner; announce "gateio"; r3])%list.
Proof.
  apply (run_tests_one_result_per_exchange Sample.scenario_D 2%positive Sample.fresh_tester
           {| results := 1%positive; endpoints := default_endpoints;
              headers := default_headers |}).
  - vm_compute. reflexivity.
  - exact sample_completes.
Defined.

(** C2 at the save of the sample results, with the file name made from
    the time. *)
Lemma save_writes_json_witness :
  ∃ w' items,
    save_results_to_file Sample.scenario_D 2%positive None Sample.tested = (Ok tt, w')
    ∧ disk w' !! "latency_test_results_20240102_030405.json"
      = Some (Complete (dumps Sample.scenario_D 2 (JObject [
          ("timestamp", JScalar (VStr "2024-01-02T03:04:05.000678"));
          ("results", JObject items)])))
    ∧ dumps Sample.scenario_D 2 (JObject [
          ("timestamp", JScalar (VStr "2024-01-02T03:04:05.000678"));
          ("results", JObject items)])
      = top_level_text Sample.scenario_D "2024-01-02T03:04:05.000678" items
    ∧ keys items = ["binance"; "bybit"; "gateio"]
    ∧ ∀ k d, dict_get Sample.tested_results k = Some d →
        ∃ fields,
          dict_get items k = Some (JObject fields)
          ∧ keys fields = keys d
          ∧ ∀ f v, dict_get d f = Some v →
                   dict_get fields f = Some (JScalar (Spec.saved_field f v)).
Proof.
  apply (save_writes_json Sample.scenario_D 2%positive None Sample.tested
           Sample.tested_results).
  - exact sample_results_at.
  - discriminate.
  - reflexivity.
Defined.

(** C6 at a tester that has not run its tests. *)
Lemma empty_results_only_warn_witness :
  ∃ wp ws,
    print_results Sample.scenario_D 2%positive Sample.fresh_tester = (Ok tt, wp)
    ∧ log wp = (log Sample.fresh_tester
                ++ [(WARNING, "No results to display. Run tests first.")])%list
    ∧ console wp = console Sample.fresh_tester ∧ disk wp = disk Sample.fresh_tester
    ∧ heap wp = heap Sample.fresh_tester
    ∧ save_results_to_file Sample.scenario_D 2%positive None Sample.fresh_tester = (Ok tt, ws)
    ∧ log ws = (log Sample.fresh_tester ++ [(WARNING, "No results to save.")])%list
    ∧ console ws = console Sample.fresh_tester ∧ disk ws = disk Sample.fresh_tester
    ∧ heap ws = heap Sample.fresh_tester.
Proof.
  apply (empty_results_only_warn Sample.scenario_D 2%positive None Sample.fresh_tester
           {| results := 1%positive; endpoints := default_endpoints;
              headers := default_headers |}).
  - vm_compute. reflexivity.
  - vm_compute. reflexivity.
Defined.

(** C7 at the save of the sample results on a full disk. *)
Lemma save_io_failure_is_logged_witness :
  ∃ w',
    save_results_to_file Sample.disk_full 2%positive None Sample.tested = (Ok tt, w')
    ∧ log w' = (log Sample.tested
                ++ [(ERROR, "Failed to save results: No space left on device")])%list
    ∧ console w' = console Sample.tested
    ∧ heap Sample.tested ⊆ heap w'
    ∧ results_at w' 2%positive Sample.tested_results.
Proof.
  apply (save_io_failure_is_logged Sample.disk_full 2%positive None Sample.tested
           Sample.tested_results "No space left on device").
  - exact sample_results_at.
  - discriminate.
  - right. reflexivity.
Defined.

(** C10 at the result of gateio in the sample run: its latency is still
    the float after the save. *)
Lemma save_leaves_results_unchanged_witness :
  heap (snd (save_results_to_file Sample.scenario_D 2%positive None Sample.tested))
    !! 6%positive = Some (CResult (error_dict "gateio" "timed out"))
  ∧ ∀ d, CResult (error_dict "gateio" "timed out") = CResult d →
         dict_get d "latency" = Some (VFloat inf) →
         ∃ d', heap (snd (save_results_to_file Sample.scenario_D 2%positive None Sample.tested))
                 !! 6%positive = Some (CResult d')
               ∧ dict_get d' "latency" = Some (VFloat inf).
Proof.
  apply (save_leaves_results_unchanged Sample.scenario_D 2%positive None Sample.tested).
  vm_compute. reflexivity.
Defined.

(** C9 at the run that is interrupted during the request to bybit. *)
Lemma interrupted_run_is_logged_and_reports_nothing_witness :
  ∃ w' lg self t run entries,
    main Sample.interrupted empty_world = (Ok tt, w')
    ∧ log w' = (lg ++ [(INFO, "Test interrupted by user")])%list
    ∧ List.filter is_announce lg = map announce ["binance"; "bybit"]
    ∧ console w' = []
    ∧ disk w' = ∅
    ∧ fst (init empty_world) = Ok self
    ∧ heap w' !! self = Some (CTester t)
    ∧ heap w' !! results t = Some (CResults [])
    ∧ heap w' !! run = Some (CResults entries)
    ∧ keys entries = ["binance"].
Proof.
  apply (interrupted_run_is_logged_and_reports_nothing Sample.interrupted (DuringProbe 1)).
  split.
  - constructor; [|constructor].
    eexists. split; [vm_compute; reflexivity|]. split; vm_compute; auto.
  - exists "bybit", "https://api.bybit.com/v5/market/time".
    repeat split; vm_compute; reflexivity.
Defined.

(** * Further properties

    The errors and the edge cases of each function, what each function
    leaves as it is, and how the functions work together in [main]. *)

(** ** What the computations keep *)

Section Keeps.

Context (I : world → Prop).

Lemma keeps_ret {A} (a : A) : keeps I (mret a).
Proof. intros w H. exact H. Qed.

Lemma keeps_raise {A} e : keeps I (@raise A e).
Proof. intros w H. exact H. Qed.

Lemma keeps_bind {A B} (m : M A) (k : A → M B) :
  keeps I m → (∀ a, keeps I (k a)) → keeps I (m ≫= k).
Proof.
  intros Hm Hk w H. rewrite bind_eq. specialize (Hm w H).
  destruct (m w) as [[a|e] w1]; simpl in *; [apply Hk|]; assumption.
Qed.

Lemma keeps_try_except {A} (m : M A) handler :
  keeps I m → (∀ e h, handler e = Some h → keeps I h) →
  keeps I (try_except m handler).
Proof.
  intros Hm Hh w H. unfold try_except. specialize (Hm w H).
  destruct (m w) as [[a|e] w1]; simpl in *; [assumption|].
  destruct (handler e) as [h|] eqn:He; [|assumption].
  apply (Hh e h He). assumption.
Qed.

Lemma keeps_for_each {A} (l : list A) body :
  (∀ x, keeps I (body x)) → keeps I (for_each l body).
Proof.
  intros Hb. induction l as [|x l IH]; cbn [for_each].
  - apply keeps_ret.
  - apply keeps_bind; [apply Hb|]. intros _. apply IH.
Qed.

Lemma keeps_load_result l : keeps I (load_result l).
Proof. intros w H. unfold load_result. destruct (heap w !! l) as [[]|]; exact H. Qed.

Lemma keeps_load_results l : keeps I (load_results l).
Proof. intros w H. unfold load_results. destruct (heap w !! l) as [[]|]; exact H. Qed.

Lemma keeps_load_tester l : keeps I (load_tester l).
Proof. intros w H. unfold load_tester. destruct (heap w !! l) as [[]|]; exact H. Qed.

Lemma keeps_subscript {V} (d : dict V) k : keeps I (subscript d k).
Proof. intros w H. unfold subscript. destruct (dict_get d k); exact H. Qed.

Lemma keeps_get E url hdrs timeout : keeps I (get E url hdrs timeout).
Proof. intros w H. unfold get. destruct (requests_get E url hdrs timeout); exact H. Qed.

Lemma keeps_sleep E x : keeps I (sleep E x).
Proof. intros w H. unfold sleep. destruct (time_sleep E x); exact H. Qed.

Lemma keeps_format_value_2f v : keeps I (format_value_2f v).
Proof.
  intros w H. destruct v as [|b|z|f|s]; try exact H.
  cbn [format_value_2f]. unfold float_of_int.
  destruct (binary_normalize prec emax z 0 false); exact H.
Qed.

(** The log is not part of [I]. *)
Hypothesis I_log : ∀ r w, I w → I (add_log r w).

Lemma keeps_logger_info s : keeps I (logger_info s).
Proof. intros w H. apply I_log, H. Qed.

Lemma keeps_logger_warning s : keeps I (logger_warning s).
Proof. intros w H. apply I_log, H. Qed.

Lemma keeps_logger_error s : keeps I (logger_error s).
Proof. intros w H. apply I_log, H. Qed.

End Keeps.

Lemma keeps_print (I : world → Prop) s :
  (∀ o w, I w → I (add_console o w)) → keeps I (print s).
Proof. intros HI w H. apply HI, H. Qed.

Lemma keeps_traceback_print_exc (I : world → Prop) e :
  (∀ o w, I w → I (add_console o w)) → keeps I (traceback_print_exc e).
Proof. intros HI w H. apply HI, H. Qed.

Lemma keeps_store (I : world → Prop) l c :
  (∀ w, I w → I (set_heap <[l := c]> w)) → keeps I (store l c).
Proof. intros HI w H. apply HI, H. Qed.

Lemma keeps_alloc (I : world → Prop) c :
  (∀ w, I w → I (set_heap <[fresh (dom (heap w)) := c]> w)) → keeps I (alloc c).
Proof. intros HI w H. apply HI, H. Qed.

(** The address of a new object has the property [P] in every world with
    [I]; the rest of the computation may rely on it. *)
Lemma keeps_alloc_bind (I : world → Prop) (P : loc → Prop) {B} c (k : loc → M B) :
  (∀ w, I w → P (fresh (dom (heap w)))
              ∧ I (set_heap <[fresh (dom (heap w)) := c]> w)) →
  (∀ l, P l → keeps I (k l)) →
  keeps I (alloc c ≫= k).
Proof.
  intros HI Hk w H. rewrite bind_eq. cbn [alloc].
  destruct (HI w H) as [HP H']. apply (Hk _ HP). exact H'.
Qed.

Lemma keeps_open_and_dump (I : world → Prop) E filename obj :
  (∀ x w, I w → I (set_disk <[filename := x]> w)) →
  keeps I (open_and_dump E filename obj).
Proof.
  intros HI w H. unfold open_and_dump.
  destruct (fs E filename); [apply HI, H|exact H|apply HI, H].
Qed.

Lemma extends_refl w : extends (heap w) (console w) (disk w) w.
Proof. split; [reflexivity|split; reflexivity]. Qed.

Lemma extends_log h0 c0 d0 r w : extends h0 c0 d0 w → extends h0 c0 d0 (add_log r w).
Proof. intros H. exact H. Qed.

Lemma extends_alloc h0 c0 d0 c w :
  extends h0 c0 d0 w →
  h0 !! fresh (dom (heap w)) = None
  ∧ extends h0 c0 d0 (set_heap <[fresh (dom (heap w)) := c]> w).
Proof.
  intros (Hh & Hc & Hd).
  assert (Hf : h0 !! fresh (dom (heap w)) = None).
  { destruct (h0 !! fresh (dom (heap w))) as [c'|] eqn:Hl; [|reflexivity].
    apply (lookup_weaken _ _ _ _ Hl) in Hh. rewrite fresh_lookup in Hh. discriminate. }
  split; [exact Hf|].
  split; [|split; assumption]. cbn. apply insert_subseteq_r; assumption.
Qed.

Lemma extends_store h0 c0 d0 l c w :
  h0 !! l = None → extends h0 c0 d0 w → extends h0 c0 d0 (set_heap <[l := c]> w).
Proof.
  intros Hl (Hh & Hc & Hd).
  split; [|split; assumption]. cbn. apply insert_subseteq_r; assumption.
Qed.

(** One step through a computation; [side] proves that a primitive keeps
    the property. *)
Ltac keeps_step side :=
  first
    [ apply keeps_ret | apply keeps_raise
    | apply keeps_load_result | apply keeps_load_results | apply keeps_load_tester
    | apply keeps_subscript | apply keeps_get | apply keeps_sleep
    | apply keeps_format_value_2f
    | apply keeps_logger_info; side | apply keeps_logger_warning; side
    | apply keeps_logger_error; side
    | apply keeps_print; side | apply keeps_traceback_print_exc; side
    | apply keeps_store; side
    | apply keeps_open_and_dump; side
    | apply keeps_for_each; intros ?
    | apply keeps_alloc; side
    | apply keeps_bind; [|intros ?] ].

Ltac extends_side :=
  first [ exact (extends_log _ _ _)
        | intros ? ?; apply extends_alloc; assumption
        | intros ? ?; apply extends_store; assumption ].

Lemma keeps_test_rest_latency h0 c0 d0 E self exchange :
  keeps (extends h0 c0 d0) (test_rest_latency E self exchange).
Proof.
  unfold test_rest_latency.
  apply keeps_bind; [keeps_step extends_side|intros t].
  apply keeps_bind; [keeps_step extends_side|intros url].
  apply keeps_bind; [keeps_step extends_side|intros _].
  apply keeps_try_except.
  - apply keeps_bind; [keeps_step extends_side|intros s].
    destruct (s =? 200).
    + apply keeps_bind; [keeps_step extends_side|intros _].
      apply keeps_alloc. intros w H. apply extends_alloc, H.
    + apply keeps_bind; [keeps_step extends_side|intros _].
      apply keeps_alloc. intros w H. apply extends_alloc, H.
  - intros e h He. unfold except in He.
    destruct (is_RequestException e); [|discriminate].
    injection He as <-.
    apply keeps_bind; [keeps_step extends_side|intros _].
    apply keeps_alloc. intros w H. apply extends_alloc, H.
Qed.

Lemma keeps_run_tests_body h0 c0 d0 E self rsl x :
  h0 !! rsl = None →
  keeps (extends h0 c0 d0) (run_tests_body E self rsl x).
Proof.
  intros Hr. unfold run_tests_body.
  apply keeps_bind; [keeps_step extends_side|intros _].
  apply keeps_bind; [keeps_step extends_side|intros _].
  apply keeps_bind; [keeps_step extends_side|intros _].
  apply keeps_bind; [apply keeps_test_rest_latency|intros l].
  apply keeps_bind; [keeps_step extends_side|intros rs].
  apply keeps_bind; [|intros _; keeps_step extends_side].
  apply keeps_store. intros w H. apply extends_store; assumption.
Qed.

(** ** The prober: errors, fields, effects *)

Lemma test_rest_latency_no_endpoint E self exchange w t :
  heap w !! self = Some (CTester t) →
  dict_get (endpoints t) exchange = None →
  test_rest_latency E self exchange w = (Raise (KeyError exchange), w).
Proof.
  intros Hs Hu. unfold test_rest_latency.
  rewrite (bind_ok _ _ _ _ _ (load_tester_eq _ _ _ Hs)).
  unfold subscript. rewrite Hu. reflexivity.
Qed.

Lemma probe_outcome_inr E exchange url rep e :
  probe_outcome E exchange url rep = inr e ↔ rep = Fails e ∧ is_RequestException e = false.
Proof.
  unfold probe_outcome. destruct rep as [s|e'].
  - destruct (s =? 200); split; [discriminate|intros [[=] _]|discriminate|intros [[=] _]].
  - destruct (is_RequestException e') eqn:He.
    + split; [discriminate|]. intros [[= ->] H]. congruence.
    + split; [intros [= ->]; auto|]. intros [[= ->] _]. reflexivity.
Qed.

(** X1: the prober raises in two cases only.  An exchange without endpoint
    gives [KeyError] before anything is logged or requested; an exception
    of [requests.get] that is not a [RequestException] leaves the prober
    after the announcement, and no result is made. *)
Theorem prober_raises_iff E self exchange w t e w' :
  heap w !! self = Some (CTester t) →
  test_rest_latency E self exchange w = (Raise e, w')
  ↔ (dict_get (endpoints t) exchange = None ∧ e = KeyError exchange ∧ w' = w)
    ∨ (∃ url, dict_get (endpoints t) exchange = Some url
         ∧ requests_get E url (headers t) 10 = Fails e
         ∧ is_RequestException e = false
         ∧ w' = add_log (announce exchange) w).
Proof.
  intros Hs. destruct (dict_get (endpoints t) exchange) as [url|] eqn:Hu.
  - rewrite (test_rest_latency_eq E self exchange w t url Hs Hu).
    destruct (probe_outcome _ _ _ _) as [[d r]|e0] eqn:Hp.
    + split; [discriminate|].
      intros [(H & _)|(url' & [= <-] & Hr & He & _)]; [discriminate|].
      assert (Hp' : probe_outcome E exchange url (requests_get E url (headers t) 10) = inr e)
        by (apply probe_outcome_inr; auto).
      congruence.
    + apply probe_outcome_inr in Hp as [Hr He]. split.
      * intros [= <- <-]. right. exists url. auto.
      * intros [(H & _)|(url' & [= <-] & Hr' & _ & ->)]; [discriminate|].
        congruence.
  - rewrite (test_rest_latency_no_endpoint E self exchange w t Hs Hu). split.
    + intros [= <- <-]. left. auto.
    + intros [(_ & -> & ->)|(url & H & _)]; [reflexivity|discriminate].
Qed.

(** X2: the result the prober returns, field by field.  It carries the
    exchange it was asked for and the test type rest.  After a response
    its status code is the code of the response, whatever it is, success
    says whether the code is 200, the latency is the elapsed time in
    milliseconds for a 200 and +infinity otherwise, and there is no error
    field; after a transport failure the status code is None, success is
    false, the latency is +infinity, and the error field holds the text of
    the exception. *)
Theorem prober_result_fields E self exchange w l w' :
  test_rest_latency E self exchange w = (Ok l, w') →
  ∃ t url d,
    heap w !! self = Some (CTester t)
    ∧ dict_get (endpoints t) exchange = Some url
    ∧ heap w' !! l = Some (CResult d)
    ∧ dict_get d "exchange" = Some (VStr exchange)
    ∧ dict_get d "test_type" = Some (VStr "rest")
    ∧ match requests_get E url (headers t) 10 with
      | Response s =>
          dict_get d "status_code" = Some (VInt s)
          ∧ dict_get d "success" = Some (VBool (s =? 200))
          ∧ dict_get d "latency"
            = Some (VFloat (if s =? 200
                            then (clock_after E url - clock_before E url) * 1000
                            else inf))
          ∧ keys d = ["exchange"; "test_type"; "latency"; "status_code"; "success"]
      | Fails e =>
          dict_get d "status_code" = Some VNone
          ∧ dict_get d "success" = Some (VBool false)
          ∧ dict_get d "latency" = Some (VFloat inf)
          ∧ dict_get d "error" = Some (VStr (exn_str E e))
          ∧ keys d = ["exchange"; "test_type"; "latency"; "status_code"; "success"; "error"]
      end.
Proof.
  intros H.
  apply test_rest_latency_ok in H as (t & url & d & r & Hs & Hu & Hp & -> & ->).
  exists t, url, d. repeat (split; [assumption|]).
  split; [apply after_probe_lookup|].
  apply probe_outcome_cases in Hp as [[-> ->]|[(s & -> & Hne & ->)|(e & -> & _ & ->)]].
  - cbn. auto 10.
  - apply Z.eqb_neq in Hne. rewrite Hne. cbn. auto 10.
  - cbn. auto 10.
Qed.

(** X3: the prober never prints and never touches a file.  When it
    returns, the store has exactly one more object, the result, at a new
    address, and the log has two more records, the announcement and the
    record of the outcome; when it raises, the store is as before, and the
    log has at most the announcement more. *)
Theorem prober_makes_one_object E self exchange w :
  console (snd (test_rest_latency E self exchange w)) = console w
  ∧ disk (snd (test_rest_latency E self exchange w)) = disk w
  ∧ match fst (test_rest_latency E self exchange w) with
    | Ok l =>
        heap w !! l = None
        ∧ (∃ d, heap (snd (test_rest_latency E self exchange w))
                = <[l := CResult d]> (heap w))
        ∧ ∃ r, log (snd (test_rest_latency E self exchange w))
               = (log w ++ [announce exchange; r])%list
    | Raise _ =>
        heap (snd (test_rest_latency E self exchange w)) = heap w
        ∧ (log (snd (test_rest_latency E self exchange w)) = log w
           ∨ log (snd (test_rest_latency E self exchange w))
             = (log w ++ [announce exchange])%list)
    end.
Proof.
  destruct (heap w !! self) as [[| |t]|] eqn:Hs;
    try solve [unfold test_rest_latency, load_tester; rewrite bind_eq, Hs; cbn; auto].
  destruct (dict_get (endpoints t) exchange) as [url|] eqn:Hu.
  - rewrite (test_rest_latency_eq E self exchange w t url Hs Hu).
    destruct (probe_outcome _ _ _ _) as [[d r]|e]; cbn; [|auto].
    split; [reflexivity|]. split; [reflexivity|].
    split; [apply fresh_lookup|].
    split; [exists d; reflexivity|exists r; reflexivity].
  - rewrite (test_rest_latency_no_endpoint E self exchange w t Hs Hu). cbn. auto.
Qed.

(** ** The run: outcome and effects *)

Lemma round_exn_eq E eps hdrs x url :
  dict_get eps x = Some url →
  round_exn E eps hdrs x
  = match probe_outcome E x url (requests_get E url hdrs 10) with
    | inl _ => time_sleep E x
    | inr e => Some e
    end.
Proof.
  intros Hu. unfold round_exn, probe_outcome. rewrite Hu.
  destruct (requests_get E url hdrs 10) as [s|e].
  - destruct (s =? 200); reflexivity.
  - destruct (is_RequestException e); reflexivity.
Qed.

Lemma round_exn_completes E eps hdrs x :
  round_exn E eps hdrs x = None ↔ completes E eps hdrs x.
Proof.
  unfold round_exn, completes. split.
  - destruct (dict_get eps x) as [url|]; [|discriminate].
    intros H. exists url. split; [reflexivity|].
    destruct (requests_get E url hdrs 10) as [s|e]; [auto|].
    destruct (is_RequestException e); [auto|discriminate].
  - intros (url & -> & Hr & Hs).
    destruct (requests_get E url hdrs 10) as [s|e]; [exact Hs|].
    rewrite Hr. exact Hs.
Qed.

Lemma first_exn_completes E eps hdrs xs :
  first_exn E eps hdrs xs = None ↔ Forall (completes E eps hdrs) xs.
Proof.
  induction xs as [|x xs IH]; cbn [first_exn].
  - split; [constructor|reflexivity].
  - rewrite Forall_cons, <- IH, <- round_exn_completes.
    destruct (round_exn E eps hdrs x).
    + split; [discriminate|]. intros [[=] _].
    + split; [auto|]. intros [_ H]. exact H.
Qed.

Lemma run_tests_body_no_endpoint E self rsl x w t :
  heap w !! self = Some (CTester t) →
  dict_get (endpoints t) x = None →
  ∃ w', run_tests_body E self rsl x w = (Raise (KeyError x), w').
Proof.
  intros Hs Hu. unfold run_tests_body.
  rewrite bind_eq. cbn [logger_info].
  rewrite bind_eq. cbn [logger_info].
  rewrite bind_eq. cbn [logger_info].
  rewrite bind_eq.
  rewrite (test_rest_latency_no_endpoint E self x _ t) by assumption.
  eexists. reflexivity.
Qed.

(** The rounds of the loop: they end with the first exception of a round;
    without one, the tester is as before, and the dict of the run has got
    the result of each probe, in order. *)
Lemma rounds E self rsl t : ∀ xs w entries rs,
  heap w !! self = Some (CTester t) →
  heap w !! rsl = Some (CResults entries) →
  self ≠ rsl →
  entries_view (heap w) entries rs →
  NoDup (keys entries ++ xs)%list →
  match for_each xs (run_tests_body E self rsl) w with
  | (Ok _, w') =>
      first_exn E (endpoints t) (headers t) xs = None
      ∧ heap w' !! self = Some (CTester t)
      ∧ ∃ entries' rs',
          heap w' !! rsl = Some (CResults entries')
          ∧ entries_view (heap w') entries' (rs ++ rs')%list
          ∧ Forall2 (λ x r, fst r = x ∧ probed E (endpoints t) (headers t) x (snd r)) xs rs'
  | (Raise e, _) => first_exn E (endpoints t) (headers t) xs = Some e
  end.
Proof.
  induction xs as [|x xs IH]; intros w entries rs Hs Hr Hne Hv Hnd.
  - cbn. split; [reflexivity|]. split; [assumption|].
    exists entries, []. rewrite app_nil_r. auto.
  - cbn [for_each first_exn]. rewrite bind_eq.
    destruct (dict_get (endpoints t) x) as [url|] eqn:Hu.
    + rewrite (round_exn_eq E _ _ x url Hu).
      rewrite (run_tests_body_eq E self rsl x w t url entries Hs Hr Hu).
      destruct (probe_outcome _ _ _ _) as [[d r]|e] eqn:Hp; [|reflexivity].
      destruct (time_sleep E x) as [e|]; [reflexivity|].
      assert (Hkx : x ∉ keys entries).
      { apply NoDup_app in Hnd as (_ & Hdis & _). intros Hin.
        apply (Hdis x Hin). left. }
      set (w1 := after_round w rsl entries x d r).
      assert (Hv1 : entries_view (heap w1) (dict_set entries x (fresh (dom (heap w))))
                      (rs ++ [(x, d)])%list).
      { rewrite dict_set_new by assumption. apply Forall2_app.
        - eapply entries_view_preserved; [exact Hv|]. intros l0 d0 Hl0.
          apply after_round_lookup_old; [assumption|]. congruence.
        - constructor; [|constructor]. split; [reflexivity|].
          cbn [snd]. eapply after_round_lookup_new. exact Hr. }
      specialize (IH w1 (dict_set entries x (fresh (dom (heap w)))) (rs ++ [(x, d)])%list).
      destruct (for_each xs (run_tests_body E self rsl) w1) as [[[]|e] w2].
      * destruct IH as (Hf & Hs2 & entries' & rs' & Hr2 & Hv2 & Hp2).
        { apply after_round_lookup_old; assumption. }
        { apply after_round_lookup_results. }
        { assumption. }
        { exact Hv1. }
        { rewrite keys_dict_set_new by assumption. rewrite <- app_assoc. exact Hnd. }
        split; [exact Hf|]. split; [exact Hs2|].
        exists entries', ((x, d) :: rs'). split; [exact Hr2|].
        split; [rewrite <- app_assoc in Hv2; exact Hv2|].
        constructor; [|exact Hp2]. split; [reflexivity|].
        exists url, r. auto.
      * apply IH.
        { apply after_round_lookup_old; assumption. }
        { apply after_round_lookup_results. }
        { assumption. }
        { exact Hv1. }
        { rewrite keys_dict_set_new by assumption. rewrite <- app_assoc. exact Hnd. }
    + unfold round_exn. rewrite Hu.
      destruct (run_tests_body_no_endpoint E self rsl x w t Hs Hu) as (w' & ->).
      reflexivity.
Qed.

(** What a run does to the world, whatever its outcome. *)
Lemma run_tests_effects E self w t :
  heap w !! self = Some (CTester t) →
  console (snd (run_tests E self w)) = console w
  ∧ disk (snd (run_tests E self w)) = disk w
  ∧ (∀ l c, heap w !! l = Some c → l ≠ self →
            heap (snd (run_tests E self w)) !! l = Some c)
  ∧ match fst (run_tests E self w) with
    | Ok rsl =>
        rsl = fresh (dom (heap w))
        ∧ first_exn E (endpoints t) (headers t) exchanges = None
        ∧ heap (snd (run_tests E self w)) !! self
          = Some (CTester {| results := rsl; endpoints := endpoints t; headers := headers t |})
        ∧ ∃ entries rs,
            heap (snd (run_tests E self w)) !! rsl = Some (CResults entries)
            ∧ entries_view (heap (snd (run_tests E self w))) entries rs
            ∧ Forall2 (λ x r, fst r = x ∧ probed E (endpoints t) (headers t) x (snd r))
                exchanges rs
    | Raise e =>
        first_exn E (endpoints t) (headers t) exchanges = Some e
        ∧ heap (snd (run_tests E self w)) !! self = Some (CTester t)
    end.
Proof.
  intros Hs. unfold run_tests.
  rewrite bind_eq. cbn [logger_info].
  set (w0 := add_log (INFO, "Starting latency tests...") w).
  rewrite bind_eq. cbn [alloc dict_lit fold_left].
  set (rsl := fresh (dom (heap w0))).
  set (w1 := set_heap <[rsl := CResults []]> w0).
  assert (Hf : heap w !! rsl = None) by apply fresh_lookup.
  assert (Hne : self ≠ rsl) by (eapply fresh_ne; exact Hs).
  assert (Hs1 : heap w1 !! self = Some (CTester t))
    by (cbn; rewrite lookup_insert_ne by congruence; exact Hs).
  assert (Hr1 : heap w1 !! rsl = Some (CResults [])) by apply lookup_insert_eq.
  assert (Hx1 : extends (heap w) (console w) (disk w) w1).
  { split; [|split; reflexivity]. cbn. apply insert_subseteq_r; [exact Hf|reflexivity]. }
  pose proof (keeps_for_each (extends (heap w) (console w) (disk w)) exchanges
                (run_tests_body E self rsl)
                (λ x, keeps_run_tests_body _ _ _ E self rsl x Hf) w1 Hx1) as Hk.
  pose proof (rounds E self rsl t exchanges w1 [] [] Hs1 Hr1 Hne) as Hrounds.
  rewrite bind_eq. change ["binance"; "bybit"; "gateio"] with exchanges.
  destruct (for_each exchanges (run_tests_body E self rsl) w1) as [[[]|e] w2].
  - destruct Hrounds as (Hfirst & Hs2 & entries & rs & Hr2 & Hv2 & Hp2).
    { constructor. }
    { exact NoDup_exchanges. }
    destruct Hk as (Hh & Hc & Hd). cbn [snd] in Hh, Hc, Hd.
    rewrite (bind_ok _ _ _ _ _ (load_tester_eq _ _ _ Hs2)).
    rewrite bind_eq. cbn [store mret M_ret fst snd set_heap heap console disk].
    split; [exact Hc|]. split; [exact Hd|].
    split.
    { intros l c Hl Hls. rewrite lookup_insert_ne by congruence.
      exact (lookup_weaken _ _ _ _ Hl Hh). }
    split; [reflexivity|]. split; [exact Hfirst|].
    split; [apply lookup_insert_eq|].
    exists entries, rs.
    split; [rewrite lookup_insert_ne by congruence; exact Hr2|].
    split; [|exact Hp2].
    eapply entries_view_preserved; [exact Hv2|]. intros l d Hl.
    rewrite lookup_insert_ne; [exact Hl|]. congruence.
  - destruct Hk as (Hh & Hc & Hd). cbn [fst snd] in *.
    split; [exact Hc|]. split; [exact Hd|].
    split; [intros l c Hl _; exact (lookup_weaken _ _ _ _ Hl Hh)|].
    split; [|exact (lookup_weaken _ _ _ _ Hs Hh)].
    apply Hrounds; [constructor|exact NoDup_exchanges].
Qed.

Lemma first_exn_source E eps hdrs xs e :
  first_exn E eps hdrs xs = Some e → ∃ x, x ∈ xs ∧ round_exn E eps hdrs x = Some e.
Proof.
  induction xs as [|x xs IH]; cbn [first_exn]; [discriminate|].
  destruct (round_exn E eps hdrs x) as [e'|] eqn:Hx.
  - intros [= ->]. exists x. split; [left|exact Hx].
  - intros H. destruct (IH H) as (y & Hy & He). exists y. split; [right; exact Hy|exact He].
Qed.

Lemma init_ok w0 self w :
  init w0 = (Ok self, w) →
  ∃ r, heap w0 !! r = None ∧ heap w0 !! self = None ∧ r ≠ self
    ∧ heap w = <[self := CTester {| results := r; endpoints := default_endpoints;
                                    headers := default_headers |}]>
                 (<[r := CResults []]> (heap w0))
    ∧ log w = log w0 ∧ console w = console w0 ∧ disk w = disk w0.
Proof.
  unfold init. rewrite bind_eq. cbn [alloc dict_lit fold_left].
  set (r := fresh (dom (heap w0))).
  intros [= <- <-]. exists r.
  assert (Hr : heap w0 !! r = None) by apply fresh_lookup.
  assert (Hs : <[r := CResults []]> (heap w0)
               !! fresh (dom (<[r := CResults []]> (heap w0))) = None) by apply fresh_lookup.
  split; [exact Hr|].
  split.
  { cbn [heap set_heap]. apply lookup_insert_None in Hs as [Hs _]. exact Hs. }
  split.
  { cbn [heap set_heap]. apply lookup_insert_None in Hs as [_ Hs]. exact Hs. }
  repeat split.
Qed.

(** X4: a run raises the first exception that ends one of its rounds,
    in the order of the loop, and returns the new dict if no round is
    ended by one; so it returns exactly when every probe and pause
    completes. *)
Theorem run_tests_raises_the_first_exception E self w t :
  heap w !! self = Some (CTester t) →
  fst (run_tests E self w)
  = match first_exn E (endpoints t) (headers t) exchanges with
    | None => Ok (fresh (dom (heap w)))
    | Some e => Raise e
    end
  ∧ ((∃ rs, fst (run_tests E self w) = Ok rs)
     ↔ Forall (completes E (endpoints t) (headers t)) exchanges).
Proof.
  intros Hs.
  destruct (run_tests_effects E self w t Hs) as (_ & _ & _ & H).
  rewrite <- first_exn_completes.
  destruct (fst (run_tests E self w)) as [rsl|e].
  - destruct H as (-> & -> & _). split; [reflexivity|]. split; [reflexivity|eauto].
  - destruct H as (-> & _). split; [reflexivity|]. split; [intros [rs [=]]|discriminate].
Qed.

(** X5: a run never prints and never touches a file, and it leaves every
    object but the tester as it is.  The tester is bound to the dict of the
    run, a new one, only when the run returns; when the run raises, the
    tester is as before. *)
Theorem run_tests_binds_the_results_on_return E self w t :
  heap w !! self = Some (CTester t) →
  console (snd (run_tests E self w)) = console w
  ∧ disk (snd (run_tests E self w)) = disk w
  ∧ (∀ l c, heap w !! l = Some c → l ≠ self →
            heap (snd (run_tests E self w)) !! l = Some c)
  ∧ match fst (run_tests E self w) with
    | Ok rsl =>
        heap w !! rsl = None
        ∧ heap (snd (run_tests E self w)) !! self
          = Some (CTester {| results := rsl; endpoints := endpoints t; headers := headers t |})
    | Raise _ => heap (snd (run_tests E self w)) !! self = Some (CTester t)
    end.
Proof.
  intros Hs.
  destruct (run_tests_effects E self w t Hs) as (Hc & Hd & Hold & H).
  repeat (split; [assumption|]).
  destruct (fst (run_tests E self w)) as [rsl|e].
  - destruct H as (-> & _ & Hself & _). split; [apply fresh_lookup|exact Hself].
  - apply H.
Qed.

(** X6: a second run replaces the results of the first: the tester is
    bound to a new dict, and the dict of the first run, with its results,
    stays in the store as it was. *)
Theorem second_run_replaces_the_results E1 E2 self w t rs1 w1 rs2 w2 :
  heap w !! self = Some (CTester t) →
  run_tests E1 self w = (Ok rs1, w1) →
  run_tests E2 self w1 = (Ok rs2, w2) →
  rs1 ≠ rs2
  ∧ heap w2 !! self
    = Some (CTester {| results := rs2; endpoints := endpoints t; headers := headers t |})
  ∧ ∃ entries rs,
      heap w1 !! rs1 = Some (CResults entries)
      ∧ entries_view (heap w1) entries rs
      ∧ heap w2 !! rs1 = Some (CResults entries)
      ∧ entries_view (heap w2) entries rs.
Proof.
  intros Hs H1 H2.
  destruct (run_tests_effects E1 self w t Hs) as (_ & _ & _ & Hr1).
  rewrite H1 in Hr1. cbn [fst snd] in Hr1.
  destruct Hr1 as (Hrs1 & _ & Hs1 & entries & rs & He1 & Hv1 & _).
  destruct (run_tests_effects E2 self w1 _ Hs1) as (_ & _ & Hold & Hr2).
  rewrite H2 in Hr2, Hold. cbn [fst snd endpoints headers] in Hr2, Hold.
  destruct Hr2 as (Hrs2 & _ & Hs2 & _).
  assert (Hne : rs1 ≠ self) by (intros ->; congruence).
  split.
  { intros Heq. rewrite <- Heq in Hrs2. rewrite Hrs2 in He1.
    rewrite fresh_lookup in He1. discriminate. }
  split; [exact Hs2|].
  exists entries, rs. split; [exact He1|]. split; [exact Hv1|].
  split; [apply Hold; assumption|].
  eapply entries_view_preserved; [exact Hv1|]. intros l d Hl.
  apply Hold; [exact Hl|]. intros ->. congruence.
Qed.

(** X7: two testers do not share their results: each [__init__] makes
    a dict of its own, and a run of one tester leaves the other tester and
    its empty results as they are. *)
Theorem testers_do_not_share_results E w0 a wa b wb :
  init w0 = (Ok a, wa) →
  init wa = (Ok b, wb) →
  ∃ ta tb,
    heap wb !! a = Some (CTester ta)
    ∧ heap wb !! b = Some (CTester tb)
    ∧ a ≠ b
    ∧ results ta ≠ results tb
    ∧ heap wb !! results ta = Some (CResults [])
    ∧ heap wb !! results tb = Some (CResults [])
    ∧ heap (snd (run_tests E a wb)) !! b = Some (CTester tb)
    ∧ heap (snd (run_tests E a wb)) !! results tb = Some (CResults []).
Proof.
  intros Ha Hb.
  apply init_ok in Ha as (ra & Hra0 & Ha0 & Hne_a & Hwa & _).
  apply init_ok in Hb as (rb & Hrba & Hba & Hne_b & Hwb & _).
  set (ta := {| results := ra; endpoints := default_endpoints; headers := default_headers |}) in *.
  set (tb := {| results := rb; endpoints := default_endpoints; headers := default_headers |}) in *.
  assert (Ha_a : heap wa !! a = Some (CTester ta)) by (rewrite Hwa; apply lookup_insert_eq).
  assert (Hra_a : heap wa !! ra = Some (CResults [])).
  { rewrite Hwa, lookup_insert_ne by congruence. apply lookup_insert_eq. }
  assert (Hab : a ≠ b) by (intros Heq; rewrite <- Heq in Hba; congruence).
  assert (Hrab : ra ≠ rb) by (intros Heq; rewrite <- Heq in Hrba; congruence).
  assert (Hrb_a : rb ≠ a) by (intros Heq; rewrite Heq in Hrba; congruence).
  assert (Hra_b : ra ≠ b) by (intros Heq; rewrite <- Heq in Hba; congruence).
  assert (Ha_b : heap wb !! a = Some (CTester ta)).
  { rewrite Hwb, !lookup_insert_ne by congruence. exact Ha_a. }
  assert (Hb_b : heap wb !! b = Some (CTester tb)) by (rewrite Hwb; apply lookup_insert_eq).
  assert (Hrb_b : heap wb !! rb = Some (CResults [])).
  { rewrite Hwb, lookup_insert_ne by congruence. apply lookup_insert_eq. }
  exists ta, tb.
  split; [exact Ha_b|]. split; [exact Hb_b|]. split; [exact Hab|].
  split; [exact Hrab|].
  split.
  { change (results ta) with ra. rewrite Hwb, !lookup_insert_ne by congruence. exact Hra_a. }
  split; [exact Hrb_b|].
  destruct (run_tests_effects E a wb ta Ha_b) as (_ & _ & Hold & _).
  split; [apply Hold; auto|].
  apply Hold; [exact Hrb_b|exact Hrb_a].
Qed.

(** X8: on a tester made by [__init__], every exchange of the loop has
    its endpoint: an exception that leaves the run is one that
    [requests.get] raised, not a [RequestException], or one that ended a
    pause. *)
Theorem new_tester_run_raises_only_from_outside E w0 self w e w' :
  init w0 = (Ok self, w) →
  run_tests E self w = (Raise e, w') →
  ∃ x url,
    x ∈ exchanges
    ∧ dict_get default_endpoints x = Some url
    ∧ ((requests_get E url default_headers 10 = Fails e ∧ is_RequestException e = false)
       ∨ time_sleep E x = Some e).
Proof.
  intros Hi Hrun.
  apply init_ok in Hi as (r & _ & _ & _ & Hw & _).
  set (t := {| results := r; endpoints := default_endpoints; headers := default_headers |}) in *.
  assert (Hs : heap w !! self = Some (CTester t)) by (rewrite Hw; apply lookup_insert_eq).
  destruct (run_tests_effects E self w t Hs) as (_ & _ & _ & H).
  rewrite Hrun in H. cbn [fst] in H. destruct H as [H _].
  apply first_exn_source in H as (x & Hx & He).
  assert (Hu : ∃ url, dict_get default_endpoints x = Some url).
  { unfold exchanges in Hx. rewrite !elem_of_cons, elem_of_nil in Hx.
    destruct Hx as [->|[->|[->|[]]]]; eexists; reflexivity. }
  destruct Hu as (url & Hu). exists x, url.
  split; [exact Hx|]. split; [exact Hu|].
  unfold round_exn in He. cbn [endpoints headers t] in He. rewrite Hu in He.
  destruct (requests_get E url default_headers 10) as [s|e0]; [right; exact He|].
  destruct (is_RequestException e0) eqn:Hreq; [right; exact He|].
  injection He as ->. left. auto.
Qed.

(** ** The report of results *)

Lemma add_lines_app l1 l2 w : add_lines l2 (add_lines l1 w) = add_lines (l1 ++ l2) w.
Proof. unfold add_lines. cbn. rewrite map_app, app_assoc. reflexivity. Qed.

Lemma add_lines_nil w : add_lines [] w = w.
Proof. destruct w. unfold add_lines. cbn. rewrite app_nil_r. reflexivity. Qed.

Lemma print_results_body_block E x l w d b :
  heap w !! l = Some (CResult d) →
  report_block E x d b →
  print_results_body E (x, l) w = (Ok tt, add_lines b w).
Proof.
  intros Hl Hb. destruct Hb.
  - apply print_results_body_success. exact Hl.
  - apply print_results_body_failure. exact Hl.
  - apply print_results_body_error. exact Hl.
Qed.

Lemma probed_block E eps hdrs x d :
  probed E eps hdrs x d → ∃ b, report_block E x d b.
Proof.
  intros (url & r & _ & Hp).
  apply probe_outcome_cases in Hp as [[_ ->]|[(s & _ & _ & ->)|(e & _ & _ & ->)]];
    eexists; constructor.
Qed.

Lemma print_loop E : ∀ entries rs blocks w,
  entries_view (heap w) entries rs →
  Forall2 (λ r b, report_block E (fst r) (snd r) b) rs blocks →
  for_each entries (print_results_body E) w = (Ok tt, add_lines (concat blocks) w).
Proof.
  induction entries as [|[k l] entries IH]; intros rs blocks w Hv Hb.
  - apply Forall2_nil_inv_l in Hv as ->. apply Forall2_nil_inv_l in Hb as ->.
    cbn [for_each concat]. rewrite add_lines_nil. reflexivity.
  - apply Forall2_cons_inv_l in Hv as ([k' d] & rs' & [Hk Hl] & Hv & ->).
    apply Forall2_cons_inv_l in Hb as (b & blocks' & Hb & Hbs & ->).
    cbn in Hk, Hl, Hb. subst k'.
    rewrite (for_each_cons_ok _ _ _ _ _ (print_results_body_block E k l w d b Hl Hb)).
    rewrite (IH rs' blocks' (add_lines b w) Hv Hbs).
    cbn [concat]. rewrite add_lines_app. reflexivity.
Qed.

Lemma print_results_eq E self w rs blocks :
  results_at w self rs → rs ≠ [] →
  Forall2 (λ r b, report_block E (fst r) (snd r) b) rs blocks →
  print_results E self w = (Ok tt, add_lines (report_header ++ concat blocks) w).
Proof.
  intros (t & entries & Hs & Hr & Hv & _) Hne Hb.
  unfold print_results.
  rewrite (bind_ok _ _ _ _ _ (load_tester_eq _ _ _ Hs)).
  rewrite (bind_ok _ _ _ _ _ (load_results_eq _ _ _ Hr)).
  destruct entries as [|e0 entries0] eqn:Hent.
  { apply Forall2_nil_inv_l in Hv. contradiction. }
  rewrite <- Hent in *. clear Hent e0 entries0.
  rewrite bind_eq. cbn [print]. rewrite bind_eq. cbn [print]. rewrite bind_eq. cbn [print].
  rewrite (print_loop E entries rs blocks) by exact Hv || exact Hb.
  rewrite <- add_lines_app. f_equal. f_equal.
  unfold add_lines, add_console, report_header. cbn. rewrite <- !app_assoc. reflexivity.
Qed.

(** X9: the report of results made by the prober: the three header
    lines, then one block per result, in the order of the dict; it does
    not fail, and store, log and disk are as before. *)
Theorem report_of_prober_results E self w rs blocks :
  results_at w self rs → rs ≠ [] →
  Forall2 (λ r b, report_block E (fst r) (snd r) b) rs blocks →
  ∃ w',
    print_results E self w = (Ok tt, w')
    ∧ console w' = (console w ++ map Printed (report_header ++ concat blocks))%list
    ∧ heap w' = heap w ∧ log w' = log w ∧ disk w' = disk w.
Proof.
  intros Hrs Hne Hb. eexists.
  split; [exact (print_results_eq E self w rs blocks Hrs Hne Hb)|].
  repeat split.
Qed.

Lemma keeps_print_results_body (I : world → Prop) E item :
  (∀ o w, I w → I (add_console o w)) →
  keeps I (print_results_body E item).
Proof.
  intros HI. destruct item as [x l]. unfold print_results_body.
  apply keeps_bind; [apply keeps_print; exact HI|intros _].
  apply keeps_bind.
  { apply keeps_bind; [apply keeps_load_result|intros r; apply keeps_subscript]. }
  intros v. destruct (truthy v).
  - apply keeps_bind.
    { apply keeps_bind; [apply keeps_load_result|intros r; apply keeps_subscript]. }
    intros lat.
    apply keeps_bind; [apply keeps_format_value_2f|intros text].
    apply keeps_bind; [apply keeps_print; exact HI|intros _].
    apply keeps_bind.
    { apply keeps_bind; [apply keeps_load_result|intros r; apply keeps_subscript]. }
    intros s. apply keeps_print; exact HI.
  - apply keeps_bind; [apply keeps_print; exact HI|intros _].
    apply keeps_bind; [apply keeps_load_result|intros r].
    apply keeps_bind.
    { destruct (dict_has r "error"); [|apply keeps_ret].
      apply keeps_bind; [apply keeps_subscript|intros e].
      apply keeps_print; exact HI. }
    intros _.
    apply keeps_bind; [apply keeps_load_result|intros r'].
    apply keeps_print; exact HI.
Qed.

Lemma keeps_print_results (I : world → Prop) E self :
  (∀ r w, I w → I (add_log r w)) →
  (∀ o w, I w → I (add_console o w)) →
  keeps I (print_results E self).
Proof.
  intros Hlog Hcon. unfold print_results.
  apply keeps_bind; [apply keeps_load_tester|intros t].
  apply keeps_bind; [apply keeps_load_results|intros rs].
  destruct rs as [|item rs]; [apply keeps_logger_warning; exact Hlog|].
  apply keeps_bind; [apply keeps_print; exact Hcon|intros _].
  apply keeps_bind; [apply keeps_print; exact Hcon|intros _].
  apply keeps_bind; [apply keeps_print; exact Hcon|intros _].
  apply keeps_for_each. intros item'. apply keeps_print_results_body. exact Hcon.
Qed.

(** X10: [print_results] only reads: whatever the results hold and
    whatever it returns or raises, store and disk are as before. *)
Theorem print_results_only_reads E self w :
  heap (snd (print_results E self w)) = heap w
  ∧ disk (snd (print_results E self w)) = disk w.
Proof.
  apply (keeps_print_results (λ w', heap w' = heap w ∧ disk w' = disk w) E self).
  - intros r w' H. exact H.
  - intros o w' H. exact H.
  - split; reflexivity.
Qed.

(** X11: the block of any result whose success is false: the title, the
    failure line, the error line if the dict has the key error, and the
    status code, with the marker N/A if the dict has no key status_code. *)
Theorem failed_block_of_any_result E x l w d v :
  heap w !! l = Some (CResult d) →
  dict_get d "success" = Some v →
  truthy v = false →
  print_results_body E (x, l) w
  = (Ok tt,
     add_lines
       ([block_title x; "  Request failed"]
        ++ match dict_get d "error" with
           | Some e => ["  Error: " +:+ py_str E e]
           | None => []
           end
        ++ ["  Status Code: "
            +:+ py_str E (default (VStr "N/A") (dict_get d "status_code"))]) w).
Proof.
  intros Hl Hv Ht. unfold print_results_body.
  rewrite bind_eq. cbn [print].
  erewrite bind_ok by (eapply load_subscript; [exact Hl|exact Hv]).
  rewrite Ht.
  rewrite bind_eq. cbn [print].
  erewrite bind_ok by (eapply load_result_eq; exact Hl).
  unfold dict_has, subscript.
  destruct (dict_get d "error") as [e|].
  - rewrite bind_eq. rewrite bind_eq. cbn [mret M_ret print].
    erewrite bind_ok by (eapply load_result_eq; exact Hl).
    unfold print, add_lines, add_console, block_title. cbn.
    rewrite <- !app_assoc. reflexivity.
  - rewrite bind_eq. cbn [mret M_ret].
    erewrite bind_ok by (eapply load_result_eq; exact Hl).
    unfold print, add_lines, add_console, block_title. cbn.
    rewrite <- !app_assoc. reflexivity.
Qed.

(** ** Saving and the driver *)

Lemma keeps_json_of_entries (I : world → Prop) entries : keeps I (json_of_entries entries).
Proof.
  induction entries as [|[k l] entries IH]; cbn [json_of_entries].
  - apply keeps_ret.
  - apply keeps_bind; [apply keeps_load_result|]. intros d.
    apply keeps_bind; [apply IH|]. intros items. apply keeps_ret.
Qed.

(** Saving keeps a property that depends neither on the log, nor on the
    store, nor on the file that is written. *)
Lemma keeps_save_results_to_file (I : world → Prop) E self filename :
  (∀ r w, I w → I (add_log r w)) →
  (∀ f w, I w → I (set_heap f w)) →
  (∀ x w, I w → I (set_disk <[save_filename E filename := x]> w)) →
  keeps I (save_results_to_file E self filename).
Proof.
  intros Hlog Hheap Hdisk. unfold save_results_to_file.
  apply keeps_bind; [apply keeps_load_tester|intros t].
  apply keeps_bind; [apply keeps_load_results|intros rs].
  destruct rs as [|item rs]; [apply keeps_logger_warning; exact Hlog|].
  apply keeps_try_except.
  - apply keeps_bind; [apply keeps_alloc; intros w; apply Hheap|intros srs].
    apply keeps_bind.
    { apply keeps_for_each. intros [key l]. unfold save_body.
      apply keeps_bind; [apply keeps_load_result|intros r].
      apply keeps_bind; [apply keeps_alloc; intros w; apply Hheap|intros sr].
      apply keeps_bind; [apply keeps_load_result|intros d].
      apply keeps_bind.
      { match goal with
        | |- keeps _ (if ?c then _ else _) => destruct c
        end; [apply keeps_store; intros w; apply Hheap|apply keeps_ret]. }
      intros _.
      apply keeps_bind; [apply keeps_load_results|intros acc].
      apply keeps_store; intros w; apply Hheap. }
    intros _.
    apply keeps_bind.
    { unfold json_of_results.
      apply keeps_bind; [apply keeps_load_results|intros entries].
      apply keeps_bind; [apply keeps_json_of_entries|intros items].
      apply keeps_ret. }
    intros res.
    apply keeps_bind; [apply keeps_open_and_dump; exact Hdisk|intros _].
    apply keeps_logger_info; exact Hlog.
  - intros e h He. unfold except in He.
    destruct (is_Exception e); [|discriminate].
    injection He as <-. apply keeps_logger_error; exact Hlog.
Qed.

(** X12: saving writes no file but the one it names, and prints
    nothing, whatever it returns or raises. *)
Theorem save_writes_no_other_file E self filename w g :
  g ≠ save_filename E filename →
  disk (snd (save_results_to_file E self filename w)) !! g = disk w !! g
  ∧ console (snd (save_results_to_file E self filename w)) = console w.
Proof.
  intros Hg.
  apply (keeps_save_results_to_file
           (λ w', disk w' !! g = disk w !! g ∧ console w' = console w) E self filename).
  - intros r w' H. exact H.
  - intros f w' H. exact H.
  - intros x w' [Hd Hc]. split; [|exact Hc].
    cbn. rewrite lookup_insert_ne by congruence. exact Hd.
  - split; reflexivity.
Qed.

(** X13: what a save of results that are not empty leaves, by what the
    file system does: the complete file, in place of a file of that name,
    and one INFO record; or the disk as before, when the file cannot be
    opened, and one ERROR record; or a partial file, when the write fails,
    and one ERROR record. *)
Theorem save_outcome_by_file_system E self filename w rs :
  results_at w self rs → rs ≠ [] →
  ∃ w',
    save_results_to_file E self filename w = (Ok tt, w')
    ∧ console w' = console w
    ∧ match fs E (save_filename E filename) with
      | IoOk =>
          disk w' = <[save_filename E filename
                       := Complete (dumps E 2 (saved_object E rs))]> (disk w)
          ∧ log w' = (log w ++ [(INFO, "Results saved to " +:+ save_filename E filename)])%list
      | IoOpenError text =>
          disk w' = disk w
          ∧ log w' = (log w ++ [(ERROR, "Failed to save results: " +:+ text)])%list
      | IoWriteError text =>
          disk w' = <[save_filename E filename := Partial]> (disk w)
          ∧ log w' = (log w ++ [(ERROR, "Failed to save results: " +:+ text)])%list
      end.
Proof.
  intros (t & entries & Hs & Hr & Hv & Hnd) Hne.
  assert (Hnde : NoDup (keys entries)) by (rewrite (entries_view_keys _ _ _ Hv); exact Hnd).
  destruct (save_results_to_file_eq E self filename w t entries rs Hs Hr Hv Hnde Hne)
    as (wl & Hlog & Hcon & Hdisk & Heq).
  rewrite Heq.
  destruct (fs E (save_filename E filename)); eexists; (split; [reflexivity|]);
    cbn; rewrite ?Hlog, ?Hcon, ?Hdisk; auto.
Qed.


Lemma probed_blocks E eps hdrs : ∀ xs rs,
  Forall2 (λ x r, fst r = x ∧ probed E eps hdrs x (snd r)) xs rs →
  keys rs = xs ∧ ∃ blocks, Forall2 (λ r b, report_block E (fst r) (snd r) b) rs blocks.
Proof.
  induction 1 as [|x [k d] xs rs [Hk Hp] _ [IHk (blocks & IH)]].
  - split; [reflexivity|]. exists []. constructor.
  - cbn in Hk, Hp. subst k.
    destruct (probed_block E eps hdrs x d Hp) as (b & Hb).
    split; [unfold keys in *; cbn; congruence|].
    exists (b :: blocks). constructor; assumption.
Qed.

(** X15: when the run is ended by an exception other than
    [KeyboardInterrupt], [main] logs it as an error, prints the trace, and
    returns; nothing is reported or saved, and the tester's results are
    still empty. *)
Theorem main_logs_an_unexpected_exception E e :
  first_exn E default_endpoints default_headers exchanges = Some e →
  is_KeyboardInterrupt e = false →
  ∃ w' lg self t,
    main E empty_world = (Ok tt, w')
    ∧ log w' = (lg ++ [(ERROR, "Test failed with error: " +:+ exn_str E e)])%list
    ∧ console w' = [Traceback e]
    ∧ disk w' = ∅
    ∧ fst (init empty_world) = Ok self
    ∧ heap w' !! self = Some (CTester t)
    ∧ heap w' !! results t = Some (CResults []).
Proof.
  intros Hfirst Hki.
  set (t0 := {| results := 1%positive; endpoints := default_endpoints;
                headers := default_headers |}).
  set (wi := {| heap := <[2%positive := CTester t0]> (<[1%positive := CResults []]> ∅);
                log := []; console := []; disk := ∅ |}).
  assert (Hs0 : heap wi !! 2%positive = Some (CTester t0)) by reflexivity.
  assert (Hr0 : heap wi !! 1%positive = Some (CResults [])) by reflexivity.
  destruct (run_tests_effects E 2%positive wi t0 Hs0) as (Hc & Hd & Hold & H).
  destruct (run_tests E 2%positive wi) as [[rsl|e'] w3] eqn:Hrun; cbn [fst snd] in *.
  { destruct H as (_ & H & _). cbn [endpoints headers t0] in H. congruence. }
  destruct H as (H & Hs3). cbn [endpoints headers t0] in H.
  assert (e' = e) as -> by congruence.
  assert (Hex : is_Exception e = true) by (destruct e; reflexivity || discriminate).
  exists (add_console (Traceback e)
            (add_log (ERROR, "Test failed with error: " +:+ exn_str E e) w3)).
  exists (log w3), 2%positive, t0.
  split.
  { unfold main. rewrite (bind_ok _ _ _ _ _ init_empty_world).
    fold t0. fold wi. unfold try_except.
    rewrite (bind_raise _ _ _ _ _ Hrun). rewrite Hki, Hex. reflexivity. }
  split; [reflexivity|].
  split; [cbn; rewrite Hc; reflexivity|].
  split; [cbn; rewrite Hd; reflexivity|].
  split; [reflexivity|].
  split; [exact Hs3|].
  cbn [add_console add_log heap results t0]. apply Hold; [exact Hr0|discriminate].
Qed.

(** X16: when every probe and pause completes, [main] binds the three
    results to the tester, prints the report of these results, and saves
    them: the disk has the one file, complete, or no file when it cannot
    be opened, or a partial one when the write fails. *)
Theorem main_reports_and_saves_a_complete_run E :
  Forall (completes E default_endpoints default_headers) exchanges →
  ∃ w' rs blocks lg self,
    main E empty_world = (Ok tt, w')
    ∧ fst (init empty_world) = Ok self
    ∧ results_at w' self rs
    ∧ Forall2 (λ x r, fst r = x ∧ probed E default_endpoints default_headers x (snd r))
        exchanges rs
    ∧ Forall2 (λ r b, report_block E (fst r) (snd r) b) rs blocks
    ∧ console w' = map Printed (report_header ++ concat blocks)
    ∧ match fs E (save_filename E None) with
      | IoOk =>
          disk w' = {[ save_filename E None := Complete (dumps E 2 (saved_object E rs)) ]}
          ∧ log w' = (lg ++ [(INFO, "Results saved to " +:+ save_filename E None)])%list
      | IoOpenError text =>
          disk w' = ∅
          ∧ log w' = (lg ++ [(ERROR, "Failed to save results: " +:+ text)])%list
      | IoWriteError text =>
          disk w' = {[ save_filename E None := Partial ]}
          ∧ log w' = (lg ++ [(ERROR, "Failed to save results: " +:+ text)])%list
      end.
Proof.
  intros Hall.
  set (t0 := {| results := 1%positive; endpoints := default_endpoints;
                headers := default_headers |}).
  set (wi := {| heap := <[2%positive := CTester t0]> (<[1%positive := CResults []]> ∅);
                log := []; console := []; disk := ∅ |}).
  assert (Hs0 : heap wi !! 2%positive = Some (CTester t0)) by reflexivity.
  destruct (run_tests_effects E 2%positive wi t0 Hs0) as (Hc & Hd & _ & H).
  destruct (run_tests E 2%positive wi) as [[rsl|e'] w3] eqn:Hrun; cbn [fst snd] in *.
  2:{ destruct H as (H & _). cbn [endpoints headers t0] in H.
      apply first_exn_completes in Hall. congruence. }
  destruct H as (_ & _ & Hs3 & entries & rs & Hr3 & Hv3 & Hp).
  cbn [endpoints headers t0] in Hs3, Hp.
  destruct (probed_blocks E _ _ _ _ Hp) as (Hkeys & blocks & Hb).
  assert (Hnd : NoDup (keys rs)) by (rewrite Hkeys; exact NoDup_exchanges).
  assert (Hne : rs ≠ []) by (intros ->; discriminate).
  assert (Hres : results_at w3 2%positive rs).
  { eexists _, entries. split; [exact Hs3|]. split; [exact Hr3|]. split; assumption. }
  pose proof (print_results_eq E 2%positive w3 rs blocks Hres Hne Hb) as Hprint.
  set (w4 := add_lines (report_header ++ concat blocks) w3) in *.
  assert (Hnde : NoDup (keys entries)) by (rewrite (entries_view_keys _ _ _ Hv3); exact Hnd).
  destruct (save_results_to_file_eq E 2%positive None w4 _ entries rs Hs3 Hr3 Hv3 Hnde Hne)
    as (wl & Hlog & Hcon & Hdisk & Hsave).
  pose proof (frames_save_results_to_file (heap w4) E 2%positive None w4 ltac:(reflexivity))
    as Hfr.
  assert (Hpost : ∀ w', heap w4 ⊆ heap w' → results_at w' 2%positive rs).
  { intros w' Hsub. eexists _, entries.
    split; [exact (lookup_weaken _ _ _ _ Hs3 Hsub)|].
    split; [exact (lookup_weaken _ _ _ _ Hr3 Hsub)|].
    split; [|exact Hnd].
    eapply entries_view_preserved; [exact Hv3|].
    intros l d Hl. exact (lookup_weaken _ _ _ _ Hl Hsub). }
  assert (Hmain : main E empty_world = save_results_to_file E 2%positive None w4).
  { unfold main. rewrite (bind_ok _ _ _ _ _ init_empty_world).
    fold t0. fold wi. unfold try_except.
    rewrite (bind_ok _ _ _ _ _ Hrun). rewrite (bind_ok _ _ _ _ _ Hprint).
    rewrite Hsave. destruct (fs E (save_filename E None)); reflexivity. }
  rewrite Hmain. rewrite Hsave in Hfr |- *.
  assert (Hcon4 : console wl = map Printed (report_header ++ concat blocks)).
  { rewrite Hcon. cbn. rewrite Hc. reflexivity. }
  assert (Hdisk4 : disk wl = ∅) by (rewrite Hdisk; cbn; rewrite Hd; reflexivity).
  destruct (fs E (save_filename E None)); cbn [snd] in Hfr;
    eexists _, rs, blocks, (log wl), 2%positive;
    (split; [reflexivity|]); (split; [reflexivity|]);
    (split; [apply Hpost; exact Hfr|]); (split; [exact Hp|]); (split; [exact Hb|]);
    (split; [exact Hcon4|]); cbn; rewrite Hdisk4; auto.
Qed.

Lemma finite_eqb f :
  is_finite f = true →
  (f =? f)%float = true ∧ (f =? infinity)%float = false
  ∧ (f =? neg_infinity)%float = false.
Proof.
  unfold is_finite, is_nan, is_infinity.
  rewrite !FloatAxioms.eqb_spec, FloatAxioms.abs_spec.
  change (Prim2SF infinity) with (S754_infinity false).
  change (Prim2SF neg_infinity) with (S754_infinity true).
  destruct (Prim2SF f) as [s|s| |s m e]; simpl.
  - intros _. destruct s; repeat split; reflexivity.
  - destruct s; discriminate.
  - discriminate.
  - intros _. unfold SFeqb, SFcompare.
    rewrite Z.compare_refl, Pcompare_refl.
    destruct s; repeat split; reflexivity.
Qed.

(** X17: with a monotonic, bounded clock, the saved copy of a result of
    the prober holds no float that is infinite or NaN: [json.dump] writes
    no Infinity or NaN for it. *)
Theorem saved_probe_result_is_json_safe E eps hdrs x url d :
  dict_get eps x = Some url →
  clock_ok E url →
  probed E eps hdrs x d →
  Forall (λ kv, json_safe E (snd kv)) (serializable d).
Proof.
  intros Hu (Hmono & Hb0 & Hb1) (url' & r & Hu' & Hp).
  assert (url' = url) as -> by congruence.
  apply probe_outcome_cases in Hp as [[_ ->]|[(s & _ & _ & ->)|(e & _ & _ & ->)]].
  - destruct (FloatFacts.elapsed_ms_finite_nonneg _ _ Hmono Hb0 Hb1) as [Hf _].
    destruct (finite_eqb _ Hf) as (Hnan & Hinf & Hneg).
    unfold serializable. cbn [success_dict dict_get String.eqb Ascii.eqb Bool.eqb eq_inf].
    unfold inf. rewrite Hinf.
    repeat (constructor; [exact I|]).
    constructor.
    { split; [exact Hf|]. unfold floatstr. rewrite Hnan, Hinf, Hneg. reflexivity. }
    repeat (constructor; [exact I|]). constructor.
  - change (serializable (failure_dict x s))
      with [("exchange", VStr x); ("test_type", VStr "rest"); ("latency", VStr "inf");
            ("status_code", VInt s); ("success", VBool false)].
    repeat (constructor; [exact I|]). constructor.
  - change (serializable (error_dict x (exn_str E e)))
      with [("exchange", VStr x); ("test_type", VStr "rest"); ("latency", VStr "inf");
            ("status_code", VNone); ("success", VBool false);
            ("error", VStr (exn_str E e))].
    repeat (constructor; [exact I|]). constructor.
Qed.

(** ** More sample runs *)

(** X1 at an exchange that is not configured. *)
Lemma prober_raises_iff_witness :
  test_rest_latency Sample.scenario_D 2%positive "kraken" Sample.fresh_tester
  = (Raise (KeyError "kraken"), Sample.fresh_tester)
  ↔ (dict_get default_endpoints "kraken" = None
     ∧ KeyError "kraken" = KeyError "kraken"
     ∧ Sample.fresh_tester = Sample.fresh_tester)
    ∨ (∃ url, dict_get default_endpoints "kraken" = Some url
         ∧ requests_get Sample.scenario_D url default_headers 10 = Fails (KeyError "kraken")
         ∧ is_RequestException (KeyError "kraken") = false
         ∧ Sample.fresh_tester = add_log (announce "kraken") Sample.fresh_tester).
Proof.
  apply (prober_raises_iff Sample.scenario_D 2%positive "kraken" Sample.fresh_tester
           {| results := 1%positive; endpoints := default_endpoints;
              headers := default_headers |}).
  vm_compute. reflexivity.
Defined.

(** X2 at the probe of gateio, whose request times out. *)
Lemma prober_result_fields_witness :
  ∃ t url d,
    heap Sample.fresh_tester !! 2%positive = Some (CTester t)
    ∧ dict_get (endpoints t) "gateio" = Some url
    ∧ heap (snd (test_rest_latency Sample.scenario_D 2%positive "gateio" Sample.fresh_tester))
        !! 3%positive = Some (CResult d)
    ∧ dict_get d "exchange" = Some (VStr "gateio")
    ∧ dict_get d "test_type" = Some (VStr "rest")
    ∧ match requests_get Sample.scenario_D url (headers t) 10 with
      | Response s =>
          dict_get d "status_code" = Some (VInt s)
          ∧ dict_get d "success" = Some (VBool (s =? 200))
          ∧ dict_get d "latency"
            = Some (VFloat (if s =? 200
                            then (clock_after Sample.scenario_D url
                                  - clock_before Sample.scenario_D url) * 1000
                            else inf))
          ∧ keys d = ["exchange"; "test_type"; "latency"; "status_code"; "success"]
      | Fails e =>
          dict_get d "status_code" = Some VNone
          ∧ dict_get d "success" = Some (VBool false)
          ∧ dict_get d "latency" = Some (VFloat inf)
          ∧ dict_get d "error" = Some (VStr (exn_str Sample.scenario_D e))
          ∧ keys d = ["exchange"; "test_type"; "latency"; "status_code"; "success"; "error"]
      end.
Proof.
  apply (prober_result_fields Sample.scenario_D 2%positive "gateio" Sample.fresh_tester).
  vm_compute. reflexivity.
Defined.

(** X4 at the run that is interrupted during the request to bybit. *)
Lemma run_tests_raises_the_first_exception_witness :
  fst (run_tests Sample.interrupted 2%positive Sample.fresh_tester)
  = match first_exn Sample.interrupted default_endpoints default_headers exchanges with
    | None => Ok (fresh (dom (heap Sample.fresh_tester)))
    | Some e => Raise e
    end
  ∧ ((∃ rs, fst (run_tests Sample.interrupted 2%positive Sample.fresh_tester) = Ok rs)
     ↔ Forall (completes Sample.interrupted default_endpoints default_headers) exchanges).
Proof.
  apply (run_tests_raises_the_first_exception Sample.interrupted 2%positive
           Sample.fresh_tester
           {| results := 1%positive; endpoints := default_endpoints;
              headers := default_headers |}).
  vm_compute. reflexivity.
Defined.

(** X5 at the run that is interrupted during the request to bybit. *)
Lemma run_tests_binds_the_results_on_return_witness :
  console (snd (run_tests Sample.interrupted 2%positive Sample.fresh_tester))
  = console Sample.fresh_tester
  ∧ disk (snd (run_tests Sample.interrupted 2%positive Sample.fresh_tester))
    = disk Sample.fresh_tester
  ∧ (∀ l c, heap Sample.fresh_tester !! l = Some c → l ≠ 2%positive →
            heap (snd (run_tests Sample.interrupted 2%positive Sample.fresh_tester)) !! l
            = Some c)
  ∧ match fst (run_tests Sample.interrupted 2%positive Sample.fresh_tester) with
    | Ok rsl =>
        heap Sample.fresh_tester !! rsl = None
        ∧ heap (snd (run_tests Sample.interrupted 2%positive Sample.fresh_tester))
            !! 2%positive
          = Some (CTester {| results := rsl; endpoints := default_endpoints;
                             headers := default_headers |})
    | Raise _ =>
        heap (snd (run_tests Sample.interrupted 2%positive Sample.fresh_tester)) !! 2%positive
        = Some (CTester {| results := 1%positive; endpoints := default_endpoints;
                           headers := default_headers |})
    end.
Proof.
  apply (run_tests_binds_the_results_on_return Sample.interrupted 2%positive
           Sample.fresh_tester
           {| results := 1%positive; endpoints := default_endpoints;
              headers := default_headers |}).
  vm_compute. reflexivity.
Defined.

(** X6 at two sample runs in a row: the dict of the first is at 3, the dict of
    the second at 7. *)
Lemma second_run_replaces_the_results_witness :
  3%positive ≠ 7%positive
  ∧ heap Cases.retested !! 2%positive
    = Some (CTester {| results := 7%positive; endpoints := default_endpoints;
                       headers := default_headers |})
  ∧ ∃ entries rs,
      heap Sample.tested !! 3%positive = Some (CResults entries)
      ∧ entries_view (heap Sample.tested) entries rs
      ∧ heap Cases.retested !! 3%positive = Some (CResults entries)
      ∧ entries_view (heap Cases.retested) entries rs.
Proof.
  apply (second_run_replaces_the_results Sample.scenario_D Sample.scenario_D 2%positive
           Sample.fresh_tester
           {| results := 1%positive; endpoints := default_endpoints;
              headers := default_headers |}
           3%positive Sample.tested 7%positive Cases.retested).
  - vm_compute. reflexivity.
  - vm_compute. reflexivity.
  - vm_compute. reflexivity.
Defined.

(** X7 at two testers made in the empty store, the first of which runs. *)
Lemma testers_do_not_share_results_witness :
  ∃ ta tb,
    heap Cases.two_testers !! 2%positive = Some (CTester ta)
    ∧ heap Cases.two_testers !! 4%positive = Some (CTester tb)
    ∧ 2%positive ≠ 4%positive
    ∧ results ta ≠ results tb
    ∧ heap Cases.two_testers !! results ta = Some (CResults [])
    ∧ heap Cases.two_testers !! results tb = Some (CResults [])
    ∧ heap (snd (run_tests Sample.scenario_D 2%positive Cases.two_testers)) !! 4%positive
      = Some (CTester tb)
    ∧ heap (snd (run_tests Sample.scenario_D 2%positive Cases.two_testers)) !! results tb
      = Some (CResults []).
Proof.
  apply (testers_do_not_share_results Sample.scenario_D empty_world 2%positive
           Sample.fresh_tester 4%positive Cases.two_testers).
  - vm_compute. reflexivity.
  - vm_compute. reflexivity.
Defined.

(** X8 at the interrupted run. *)
Lemma new_tester_run_raises_only_from_outside_witness :
  ∃ x url,
    x ∈ exchanges
    ∧ dict_get default_endpoints x = Some url
    ∧ ((requests_get Sample.interrupted url default_headers 10 = Fails KeyboardInterrupt
        ∧ is_RequestException KeyboardInterrupt = false)
       ∨ time_sleep Sample.interrupted x = Some KeyboardInterrupt).
Proof.
  apply (new_tester_run_raises_only_from_outside Sample.interrupted empty_world 2%positive
           Sample.fresh_tester KeyboardInterrupt
           (snd (run_tests Sample.interrupted 2%positive Sample.fresh_tester))).
  - vm_compute. reflexivity.
  - vm_compute. reflexivity.
Defined.

(** The blocks of the sample report are those of the sample results. *)
Lemma sample_blocks :
  Forall2 (λ r b, report_block Sample.scenario_D (fst r) (snd r) b)
    Sample.tested_results Cases.tested_blocks.
Proof.
  constructor; [exact (block_success Sample.scenario_D "binance" 62.5 200)|].
  constructor; [exact (block_failure Sample.scenario_D "bybit" 503)|].
  constructor; [exact (block_error Sample.scenario_D "gateio" "timed out")|].
  constructor.
Defined.

(** X9 at the results of the sample run. *)
Lemma report_of_prober_results_witness :
  ∃ w',
    print_results Sample.scenario_D 2%positive Sample.tested = (Ok tt, w')
    ∧ console w' = (console Sample.tested
                    ++ map Printed (report_header ++ concat Cases.tested_blocks))%list
    ∧ heap w' = heap Sample.tested ∧ log w' = log Sample.tested
    ∧ disk w' = disk Sample.tested.
Proof.
  apply (report_of_prober_results Sample.scenario_D 2%positive Sample.tested
           Sample.tested_results Cases.tested_blocks).
  - exact sample_results_at.
  - discriminate.
  - exact sample_blocks.
Defined.

(** X11 at a result without status code: the block ends with N/A. *)
Lemma failed_block_of_any_result_witness :
  print_results_body Sample.scenario_D ("binance", 1%positive) Cases.bare_result
  = (Ok tt,
     add_lines
       ([block_title "binance"; "  Request failed"]
        ++ match dict_get [("success", VBool false)] "error" with
           | Some e => ["  Error: " +:+ py_str Sample.scenario_D e]
           | None => []
           end
        ++ ["  Status Code: "
            +:+ py_str Sample.scenario_D
                  (default (VStr "N/A")
                     (dict_get [("success", VBool false)] "status_code"))])
       Cases.bare_result).
Proof.
  apply (failed_block_of_any_result Sample.scenario_D "binance" 1%positive
           Cases.bare_result [("success", VBool false)] (VBool false)).
  - vm_compute. reflexivity.
  - reflexivity.
  - reflexivity.
Defined.

(** X12 at the save of the sample results and another file. *)
Lemma save_writes_no_other_file_witness :
  disk (snd (save_results_to_file Sample.scenario_D 2%positive None Sample.tested))
    !! "notes.txt" = disk Sample.tested !! "notes.txt"
  ∧ console (snd (save_results_to_file Sample.scenario_D 2%positive None Sample.tested))
    = console Sample.tested.
Proof.
  apply (save_writes_no_other_file Sample.scenario_D 2%positive None Sample.tested
           "notes.txt").
  vm_compute. discriminate.
Defined.

(** X13 at the save of the sample results on a full disk. *)
Lemma save_outcome_by_file_system_witness :
  ∃ w',
    save_results_to_file Sample.disk_full 2%positive None Sample.tested = (Ok tt, w')
    ∧ console w' = console Sample.tested
    ∧ match fs Sample.disk_full (save_filename Sample.disk_full None) with
      | IoOk =>
          disk w' = <[save_filename Sample.disk_full None
                       := Complete (dumps Sample.disk_full 2
                                      (saved_object Sample.disk_full Sample.tested_results))]>
                      (disk Sample.tested)
          ∧ log w' = (log Sample.tested
                      ++ [(INFO, "Results saved to "
                                 +:+ save_filename Sample.disk_full None)])%list
      | IoOpenError text =>
          disk w' = disk Sample.tested
          ∧ log w' = (log Sample.tested
                      ++ [(ERROR, "Failed to save results: " +:+ text)])%list
      | IoWriteError text =>
          disk w' = <[save_filename Sample.disk_full None := Partial]> (disk Sample.tested)
          ∧ log w' = (log Sample.tested
                      ++ [(ERROR, "Failed to save results: " +:+ text)])%list
      end.
Proof.
  apply (save_outcome_by_file_system Sample.disk_full 2%positive None Sample.tested
           Sample.tested_results).
  - exact sample_results_at.
  - discriminate.
Defined.

(** X15 at the run in which the request to bybit raises an exception that is
    not a [RequestException]. *)
Lemma main_logs_an_unexpected_exception_witness :
  ∃ w' lg self t,
    main Cases.crashing empty_world = (Ok tt, w')
    ∧ log w' = (lg ++ [(ERROR, "Test failed with error: "
                               +:+ exn_str Cases.crashing (OtherException "boom"))])%list
    ∧ console w' = [Traceback (OtherException "boom")]
    ∧ disk w' = ∅
    ∧ fst (init empty_world) = Ok self
    ∧ heap w' !! self = Some (CTester t)
    ∧ heap w' !! results t = Some (CResults []).
Proof.
  apply (main_logs_an_unexpected_exception Cases.crashing (OtherException "boom")).
  - vm_compute. reflexivity.
  - reflexivity.
Defined.

(** X16 at the sample run. *)
Lemma main_reports_and_saves_a_complete_run_witness :
  ∃ w' rs blocks lg self,
    main Sample.scenario_D empty_world = (Ok tt, w')
    ∧ fst (init empty_world) = Ok self
    ∧ results_at w' self rs
    ∧ Forall2 (λ x r, fst r = x
                      ∧ probed Sample.scenario_D default_endpoints default_headers x (snd r))
        exchanges rs
    ∧ Forall2 (λ r b, report_block Sample.scenario_D (fst r) (snd r) b) rs blocks
    ∧ console w' = map Printed (report_header ++ concat blocks)
    ∧ match fs Sample.scenario_D (save_filename Sample.scenario_D None) with
      | IoOk =>
          disk w' = {[ save_filename Sample.scenario_D None
                       := Complete (dumps Sample.scenario_D 2
                                      (saved_object Sample.scenario_D rs)) ]}
          ∧ log w' = (lg ++ [(INFO, "Results saved to "
                                    +:+ save_filename Sample.scenario_D None)])%list
      | IoOpenError text =>
          disk w' = ∅
          ∧ log w' = (lg ++ [(ERROR, "Failed to save results: " +:+ text)])%list
      | IoWriteError text =>
          disk w' = {[ save_filename Sample.scenario_D None := Partial ]}
          ∧ log w' = (lg ++ [(ERROR, "Failed to save results: " +:+ text)])%list
      end.
Proof.
  apply (main_reports_and_saves_a_complete_run Sample.scenario_D).
  apply Forall_forall. exact sample_completes.
Defined.

(** X17 at the result of binance in the sample run. *)
Lemma saved_probe_result_is_json_safe_witness :
  Forall (λ kv, json_safe Sample.scenario_D (snd kv))
    (serializable (success_dict "binance" 62.5 200)).
Proof.
  apply (saved_probe_result_is_json_safe Sample.scenario_D default_endpoints
           default_headers "binance" Sample.binance_url).
  - reflexivity.
  - repeat split; vm_compute; reflexivity.
  - exists Sample.binance_url. eexists. split; vm_compute; reflexivity.
Defined.
